(** * cloudwatch-event-notifier-lambda: the request handler of [main.go]

    A shallow embedding of [HandleRequest] (main.go, lines 74-148) together
    with the parts of its collaborators that decide its behaviour:

    - [encoding_json] and [json]: what Go's [encoding/json] does at the call
      [json.Unmarshal(event.Detail, &emrEventDetail)], for the struct
      [EMREventDetail] (main.go, lines 44-48);
    - [events] and [slack]: the records of the AWS and Slack packages that
      the handler reads and fills in;
    - [Collaborators]: the clock, the time type and the Slack client, which
      main.go uses and does not define;
    - [HandleRequest]: the handler, in a state monad over a world that
      records the calls of [Send] and the log lines.
*)

From Equations Require Import Equations.
From Stdlib Require Import List Arith ZArith NArith Lia Bool.
From Stdlib Require Import Strings.String Strings.Ascii Strings.Byte.
Import ListNotations.
Open Scope string_scope.
Open Scope list_scope.

(* ===================================================================== *)
(** ** Go's [encoding/json], as far as [EMREventDetail] needs it         *)
(* ===================================================================== *)

Module encoding_json.

(** A decoded JSON text.  Strings and object keys are held unquoted, as
    the bytes of the Go string that [unquote] produces; a number keeps the
    bytes of its literal. *)
#[warnings="-register-all"]
Inductive json : Type :=
| JNull
| JBool (b : bool)
| JNumber (lit : list byte)
| JString (s : list byte)
| JArray (elems : list json)
| JObject (members : list (list byte * json)).

Definition code (b : byte) : N := Byte.to_N b.

Definition between (lo hi : N) (b : byte) : bool :=
  ((lo <=? code b) && (code b <=? hi))%N.

#[local] Infix "==" := Byte.eqb (at level 70, no associativity).

(** The quote character and the backslash. *)
Definition quote : byte := x22.
Definition backslash : byte := x5c.

(** scanner.go, [isSpace]. *)
Definition isSpace (c : byte) : bool :=
  (c == " ") || (c == x09) || (c == x0d) || (c == x0a).

Fixpoint skip_ws (s : list byte) : list byte :=
  match s with
  | c :: r => if isSpace c then skip_ws r else s
  | [] => []
  end.

(** *** String literals: scanner.go [stateInString] and friends, and
    decode.go [unquoteBytes] *)

(** decode.go, [getu4]: the value of one hexadecimal digit. *)
Definition hexval (c : byte) : option N :=
  if between 48 57 c then Some (code c - 48)%N
  else if between 97 102 c then Some (code c - 97 + 10)%N
  else if between 65 70 c then Some (code c - 65 + 10)%N
  else None.

Definition getu4 (h1 h2 h3 h4 : byte) : option N :=
  match hexval h1, hexval h2, hexval h3, hexval h4 with
  | Some a, Some b, Some c, Some d => Some (((a * 16 + b) * 16 + c) * 16 + d)%N
  | _, _, _, _ => None
  end.

Definition byte_of_N (n : N) : byte :=
  match Byte.of_N n with Some b => b | None => x00 end.

(** The three bytes of U+FFFD, [unicode.ReplacementChar]. *)
Definition RuneError : list byte := [xef; xbf; xbd].

(** unicode/utf8, [EncodeRune]. *)
Definition EncodeRune (r : N) : list byte :=
  if (r <=? 127)%N then [byte_of_N r]
  else if (r <=? 2047)%N then
    [byte_of_N (192 + r / 64); byte_of_N (128 + r mod 64)]
  else if ((1114111 <? r) || ((55296 <=? r) && (r <=? 57343)))%N then RuneError
  else if (r <=? 65535)%N then
    [byte_of_N (224 + r / 4096); byte_of_N (128 + (r / 64) mod 64);
     byte_of_N (128 + r mod 64)]
  else
    [byte_of_N (240 + r / 262144); byte_of_N (128 + (r / 4096) mod 64);
     byte_of_N (128 + (r / 64) mod 64); byte_of_N (128 + r mod 64)].

(** unicode/utf16, [IsSurrogate] and [DecodeRune]. *)
Definition IsSurrogate (r : N) : bool := ((55296 <=? r) && (r <? 57344))%N.

Definition utf16_DecodeRune (r1 r2 : N) : option N :=
  if ((55296 <=? r1) && (r1 <? 56320) && (56320 <=? r2) && (r2 <? 57344))%N
  then Some ((r1 - 55296) * 1024 + (r2 - 56320) + 65536)%N
  else None.

(** unicode/utf8, the table [first] with [acceptRanges]: for a leading
    byte, the length of the encoding and the range its second byte must
    lie in; [None] for a byte that cannot start a multi-byte encoding. *)
Definition utf8_first (c : byte) : option (nat * N * N) :=
  if between 194 223 c then Some (2%nat, 128%N, 191%N)
  else if between 224 224 c then Some (3%nat, 160%N, 191%N)
  else if between 225 236 c then Some (3%nat, 128%N, 191%N)
  else if between 237 237 c then Some (3%nat, 128%N, 159%N)
  else if between 238 239 c then Some (3%nat, 128%N, 191%N)
  else if between 240 240 c then Some (4%nat, 144%N, 191%N)
  else if between 241 243 c then Some (4%nat, 128%N, 191%N)
  else if between 244 244 c then Some (4%nat, 128%N, 143%N)
  else None.

Definition cont (b : byte) : bool := between 128 191 b.

(** The byte a one-letter escape stands for: scanner.go,
    [stateInStringEsc], and the same switch of [unquoteBytes]. *)
Definition escape (e : byte) : option byte :=
  if (e == quote) || (e == backslash) || (e == "/") then Some e
  else if e == "b" then Some x08
  else if e == "f" then Some x0c
  else if e == "n" then Some x0a
  else if e == "r" then Some x0d
  else if e == "t" then Some x09
  else None.

Definition prepend (p : list byte) (k : option (list byte * list byte))
  : option (list byte * list byte) :=
  match k with
  | Some (s, r) => Some (p ++ s, r)
  | None => None
  end.

(** [scan_string s] reads a string literal whose opening quote has been
    consumed: the unquoted bytes and the input after the closing quote.
    [None] where the scanner reports a syntax error (a control character,
    an unknown escape, the end of the input).  Bytes that are not
    well-formed UTF-8, and unpaired surrogate escapes, come out as
    U+FFFD, as [unquoteBytes] coerces them. *)
Fixpoint scan_string (s : list byte) : option (list byte * list byte) :=
  match s with
  | [] => None
  | c :: r =>
      if c == quote then Some ([], r)
      else if c == backslash then
        match r with
        | [] => None
        | e :: r0 =>
            if e == "u" then
              match r0 with
              | h1 :: h2 :: h3 :: h4 :: r1 =>
                  match getu4 h1 h2 h3 h4 with
                  | None => None
                  | Some rr =>
                      if IsSurrogate rr then
                        match r1 with
                        | b :: u :: k1 :: k2 :: k3 :: k4 :: r2 =>
                            match (if (b == backslash) && (u == "u")
                                   then getu4 k1 k2 k3 k4 else None) with
                            | Some rr1 =>
                                match utf16_DecodeRune rr rr1 with
                                | Some dec =>
                                    prepend (EncodeRune dec) (scan_string r2)
                                | None => prepend RuneError (scan_string r1)
                                end
                            | None => prepend RuneError (scan_string r1)
                            end
                        | _ => prepend RuneError (scan_string r1)
                        end
                      else prepend (EncodeRune rr) (scan_string r1)
                  end
              | _ => None
              end
            else
              match escape e with
              | Some b => prepend [b] (scan_string r0)
              | None => None
              end
        end
      else if (code c <? 32)%N then None
      else if (code c <? 128)%N then prepend [c] (scan_string r)
      else
        match utf8_first c, r with
        | Some (2%nat, lo, hi), b1 :: r1 =>
            if between lo hi b1 then prepend [c; b1] (scan_string r1)
            else prepend RuneError (scan_string r)
        | Some (3%nat, lo, hi), b1 :: b2 :: r2 =>
            if between lo hi b1 && cont b2
            then prepend [c; b1; b2] (scan_string r2)
            else prepend RuneError (scan_string r)
        | Some (4%nat, lo, hi), b1 :: b2 :: b3 :: r3 =>
            if between lo hi b1 && cont b2 && cont b3
            then prepend [c; b1; b2; b3] (scan_string r3)
            else prepend RuneError (scan_string r)
        | _, _ => prepend RuneError (scan_string r)
        end
  end.

(** *** Number literals: scanner.go [stateNeg], [state0], [state1],
    [stateDot], [stateDot0], [stateE], [stateESign], [stateE0] *)

Definition isDigit (b : byte) : bool := between 48 57 b.

Fixpoint span_digits (s : list byte) : list byte * list byte :=
  match s with
  | c :: r =>
      if isDigit c then let (ds, r') := span_digits r in (c :: ds, r')
      else ([], s)
  | [] => ([], [])
  end.

(** One digit at least, then what [k] reads. *)
Definition digits_then (k : list byte -> option (list byte * list byte))
           (s : list byte) : option (list byte * list byte) :=
  match span_digits s with
  | ([], _) => None
  | (ds, r) => prepend ds (k r)
  end.

Definition scan_exp (s : list byte) : option (list byte * list byte) :=
  match s with
  | e :: r =>
      if (e == "e") || (e == "E") then
        match r with
        | c :: r1 =>
            if (c == "+") || (c == "-")
            then prepend [e; c] (digits_then (fun r2 => Some ([], r2)) r1)
            else prepend [e] (digits_then (fun r2 => Some ([], r2)) r)
        | [] => None
        end
      else Some ([], s)
  | [] => Some ([], [])
  end.

Definition scan_frac (s : list byte) : option (list byte * list byte) :=
  match s with
  | c :: r =>
      if c == "." then prepend [c] (digits_then scan_exp r) else scan_exp s
  | [] => Some ([], [])
  end.

Definition scan_int (s : list byte) : option (list byte * list byte) :=
  match s with
  | c :: r =>
      if c == "0" then prepend [c] (scan_frac r)
      else if between 49 57 c then
        let (ds, r1) := span_digits r in prepend (c :: ds) (scan_frac r1)
      else None
  | [] => None
  end.

Definition scan_number (s : list byte) : option (list byte * list byte) :=
  match s with
  | c :: r => if c == "-" then prepend [c] (scan_int r) else scan_int s
  | [] => None
  end.

(** *** Values: scanner.go [stateBeginValue], [stateEndValue] *)

(** [literal word v s]: the input [s] goes on with [word]; the value is
    [v]. *)
Fixpoint literal {A : Type} (word : list byte) (v : A) (s : list byte)
  : option (A * list byte) :=
  match word, s with
  | [], _ => Some (v, s)
  | w :: word', c :: r => if c == w then literal word' v r else None
  | _ :: _, [] => None
  end.

Section Containers.
(** The parser of one element, at the nesting depth of the container. *)
Variable value : list byte -> option (json * list byte).

(** The elements of an array after the first [[]; the array is not empty:
    scanner.go, [parseArrayValue].  Every round consumes input, so the
    length of the input is fuel enough. *)
Fixpoint parse_elements (fuel : nat) (s : list byte)
  : option (list json * list byte) :=
  match fuel with
  | O => None
  | S fuel' =>
      match value s with
      | None => None
      | Some (v, r) =>
          match skip_ws r with
          | c :: r1 =>
              if c == "," then
                match parse_elements fuel' r1 with
                | Some (vs, r2) => Some (v :: vs, r2)
                | None => None
                end
              else if c == "]" then Some ([v], r1)
              else None
          | [] => None
          end
      end
  end.

(** One member of an object, from its key on: scanner.go, [parseObjectKey]
    and [parseObjectValue]. *)
Definition parse_member (s : list byte)
  : option ((list byte * json) * list byte) :=
  match skip_ws s with
  | q :: r =>
      if q == quote then
        match scan_string r with
        | None => None
        | Some (k, r1) =>
            match skip_ws r1 with
            | c :: r2 =>
                if c == ":" then
                  match value r2 with
                  | Some (v, r3) => Some ((k, v), r3)
                  | None => None
                  end
                else None
            | [] => None
            end
        end
      else None
  | [] => None
  end.

(** The members of an object that is not empty. *)
Fixpoint parse_members (fuel : nat) (s : list byte)
  : option (list (list byte * json) * list byte) :=
  match fuel with
  | O => None
  | S fuel' =>
      match parse_member s with
      | None => None
      | Some (m, r) =>
          match skip_ws r with
          | c :: r1 =>
              if c == "," then
                match parse_members fuel' r1 with
                | Some (ms, r2) => Some (m :: ms, r2)
                | None => None
                end
              else if c == "}" then Some ([m], r1)
              else None
          | [] => None
          end
      end
  end.
End Containers.

(** scanner.go, [maxNestingDepth]: [pushParseState] refuses a container
    nested deeper. *)
#[warnings="-abstract-large-number"]
Definition maxNestingDepth : nat := 10000.

(** [closes c s]: after white space, [s] goes on with the character [c];
    what follows it. *)
Definition closes (c : byte) (s : list byte) : option (list byte) :=
  match skip_ws s with
  | c' :: r => if c' == c then Some r else None
  | [] => None
  end.

(** [parse_value depth s] reads one value, after optional white space;
    [depth] is the number of containers that may still be opened. *)
Fixpoint parse_value (depth : nat) (s : list byte) : option (json * list byte) :=
  match skip_ws s with
  | [] => None
  | c :: r =>
      if c == quote then
        match scan_string r with
        | Some (str, r1) => Some (JString str, r1)
        | None => None
        end
      else if c == "{" then
        match depth with
        | O => None
        | S d =>
            match closes "}" r with
            | Some r1 => Some (JObject [], r1)
            | None =>
                match parse_members (parse_value d) (List.length r) r with
                | Some (ms, r1) => Some (JObject ms, r1)
                | None => None
                end
            end
        end
      else if c == "[" then
        match depth with
        | O => None
        | S d =>
            match closes "]" r with
            | Some r1 => Some (JArray [], r1)
            | None =>
                match parse_elements (parse_value d) (List.length r) r with
                | Some (vs, r1) => Some (JArray vs, r1)
                | None => None
                end
            end
        end
      else if c == "t" then literal (list_byte_of_string "rue") (JBool true) r
      else if c == "f" then literal (list_byte_of_string "alse") (JBool false) r
      else if c == "n" then literal (list_byte_of_string "ull") JNull r
      else
        match scan_number (c :: r) with
        | Some (lit, r1) => Some (JNumber lit, r1)
        | None => None
        end
  end.

(** scanner.go, [checkValid] with [eof]: one value, then only white
    space.  [None] is a [*json.SyntaxError]. *)
Definition parse (data : list byte) : option json :=
  match parse_value maxNestingDepth data with
  | Some (v, r) =>
      match skip_ws r with
      | [] => Some v
      | _ => None
      end
  | None => None
  end.

(** *** Storing a value into a Go [string]: decode.go *)

(** The errors [Unmarshal] returns.  [SyntaxError] stands for
    [*json.SyntaxError], [UnmarshalTypeError] for the error of the same
    name with its fields [Value], [Struct] and [Field]; messages and
    offsets are left out. *)
Inductive json_error : Type :=
| SyntaxError
| UnmarshalTypeError (Value Struct Field : string).

(** decode.go, [saveError]: the first error is the one reported. *)
Definition saveError (saved new : option json_error) : option json_error :=
  match saved with
  | Some e => Some e
  | None => new
  end.

(** decode.go, [literalStore], [array] and [object] at a destination of
    kind [reflect.String]: a JSON string is stored, [null] leaves the
    destination as it is, every other value is a type error (and decoding
    goes on). *)
Definition store_string (v : json) (Struct Field : string) (cur : string)
  : string * option json_error :=
  match v with
  | JString s => (string_of_list_byte s, None)
  | JNull => (cur, None)
  | JBool _ => (cur, Some (UnmarshalTypeError "bool" Struct Field))
  | JNumber _ => (cur, Some (UnmarshalTypeError "number" Struct Field))
  | JArray _ => (cur, Some (UnmarshalTypeError "array" Struct Field))
  | JObject _ => (cur, Some (UnmarshalTypeError "object" Struct Field))
  end.

(** fold.go, [foldName]: ASCII letters go to upper case and every other
    rune to the least rune of its [unicode.SimpleFold] orbit.  Two runes
    outside ASCII fold to an ASCII letter, U+017F (long s) to [S] and
    U+212A (Kelvin sign) to [K]; the others fold to runes outside ASCII and
    are left as they are here, which changes no comparison with a name made
    of ASCII letters. *)
Fixpoint foldName (s : list byte) : list byte :=
  match s with
  | [] => []
  | xc5 :: xbf :: r => x53 :: foldName r
  | xe2 :: x84 :: xaa :: r => x4b :: foldName r
  | c :: r =>
      (if between 97 122 c then byte_of_N (code c - 32) else c) :: foldName r
  end.

Definition bytes_eqb (a b : list byte) : bool :=
  if list_eq_dec Byte.byte_eq_dec a b then true else false.

(** decode.go, [object]: the field of the struct an object key selects,
    among the JSON names [names] of the fields: the field of that very
    name, else the first one whose name is the same after folding. *)
Definition find_field {F : Type} (names : list (string * F)) (key : list byte)
  : option F :=
  match find (fun nf => bytes_eqb (list_byte_of_string (fst nf)) key) names with
  | Some nf => Some (snd nf)
  | None =>
      match find (fun nf => bytes_eqb (foldName (list_byte_of_string (fst nf)))
                                      (foldName key)) names with
      | Some nf => Some (snd nf)
      | None => None
      end
  end.

End encoding_json.

(* ===================================================================== *)
(** ** The collaborators' data types                                     *)
(* ===================================================================== *)

(** github.com/aws/aws-lambda-go/events, [CloudWatchEvent], over the type
    [time_Time] that stands for Go's [time.Time]. *)
Module events.
Record CloudWatchEvent {time_Time : Type} : Type := {
  Version : string;
  ID : string;
  DetailType : string;
  Source : string;
  AccountID : string;
  Time : time_Time;
  Region : string;
  Resources : list string;
  Detail : list byte
}.
Arguments CloudWatchEvent : clear implicits.
End events.

(** github.com/jmoney8080/go-gadget-slack: the fields of [Attachment],
    [AttachmentField] and [Payload] that main.go fills in.  The fields
    [Title], [Value] and [Short] of [AttachmentField] are [Field_Title],
    [Field_Value] and [Field_Short] here, and the field [AttachmentField] of
    [Attachment] is [Attachment_Field]. *)
Module slack.
Record AttachmentField : Type := {
  Field_Title : string;
  Field_Value : string;
  Field_Short : bool
}.

Record Attachment : Type := {
  Color : string;
  Title : string;
  Text : string;
  Footer : string;
  FooterIcon : string;
  Ts : Z;
  Attachment_Field : list AttachmentField
}.

Record Payload : Type := {
  Channel : string;
  Attachments : list Attachment
}.
End slack.

(* ===================================================================== *)
(** ** main.go                                                           *)
(* ===================================================================== *)

(** main.go, lines 43-48. *)
Record EMREventDetail : Type := {
  Severity : string;
  State : string;
  Message : string
}.

Inductive EMREventDetail_field : Type := F_Severity | F_State | F_Message.

(** The json tags of the struct, in the order of its fields. *)
Definition EMREventDetail_tags : list (string * EMREventDetail_field) :=
  [("severity", F_Severity); ("state", F_State); ("message", F_Message)].

Definition get_field (f : EMREventDetail_field) (d : EMREventDetail) : string :=
  match f with
  | F_Severity => Severity d
  | F_State => State d
  | F_Message => Message d
  end.

Definition set_field (f : EMREventDetail_field) (s : string) (d : EMREventDetail)
  : EMREventDetail :=
  match f with
  | F_Severity => {| Severity := s; State := State d; Message := Message d |}
  | F_State => {| Severity := Severity d; State := s; Message := Message d |}
  | F_Message => {| Severity := Severity d; State := State d; Message := s |}
  end.

(** The zero value [EMREventDetail{}] of line 78. *)
Definition EMREventDetail_zero : EMREventDetail :=
  {| Severity := ""; State := ""; Message := "" |}.

Module json.
Import encoding_json.

Definition tag_of (f : EMREventDetail_field) : string :=
  match f with
  | F_Severity => "severity"
  | F_State => "state"
  | F_Message => "message"
  end.

(** decode.go, [object], one member of the object: a key that selects no
    field is skipped with its value; otherwise the value is stored into
    the field. *)
Definition decode_member (acc : EMREventDetail * option json_error)
           (m : list byte * encoding_json.json) : EMREventDetail * option json_error :=
  match find_field EMREventDetail_tags (fst m) with
  | None => acc
  | Some f =>
      let (s, e) := store_string (snd m) "EMREventDetail" (tag_of f)
                                 (get_field f (fst acc)) in
      (set_field f s (fst acc), saveError (snd acc) e)
  end.

Definition decode_object (ms : list (list byte * encoding_json.json)) (d : EMREventDetail)
  : EMREventDetail * option json_error :=
  fold_left decode_member ms (d, None).

(** [json.Unmarshal(data, &d)] for [d] of type [EMREventDetail]: the
    struct after the call and the error returned.  The input is checked
    as a whole first; then an object is decoded member by member, [null]
    changes nothing, and any other value cannot be stored in a struct. *)
Definition Unmarshal (data : list byte) (d : EMREventDetail)
  : EMREventDetail * option json_error :=
  match parse data with
  | None => (d, Some SyntaxError)
  | Some (JObject ms) => decode_object ms d
  | Some JNull => (d, None)
  | Some (JBool _) => (d, Some (UnmarshalTypeError "bool" "" ""))
  | Some (JNumber _) => (d, Some (UnmarshalTypeError "number" "" ""))
  | Some (JString _) => (d, Some (UnmarshalTypeError "string" "" ""))
  | Some (JArray _) => (d, Some (UnmarshalTypeError "array" "" ""))
  end.
End json.

(** Go's slice expression [s[i:j]], for [i <= j <= len(s)]. *)
Definition slice {A : Type} (s : list A) (i j : nat) : list A :=
  firstn (j - i) (skipn i s).

(** What main.go takes from outside and never defines: [time.Time] with its
    methods [String] and [UnixNano], whose result is an [int64], as
    [Time_UnixNano_int64] says; [context.Context], which
    the handler does not use; the Slack client behind [slackClient], with
    its state (the connection and whatever the webhook remembers), its
    response type, its errors and its method [Send], which answers with a
    response and an error; and [slackMonitorChannel], read from the
    environment by [init] (line 66) and not assigned again. *)
Class Collaborators : Type := {
  time_Time : Type;
  Time_String : time_Time -> string;
  Time_UnixNano : time_Time -> Z;
  Time_UnixNano_int64 : forall t, (- 2 ^ 63 <= Time_UnixNano t < 2 ^ 63)%Z;
  Context : Type;
  Client : Type;
  Response : Type;
  ClientError : Type;
  Client_Send : Client -> slack.Payload -> Client * (Response * option ClientError);
  slackMonitorChannel : string
}.

(** [slackAttachmentsChunkSize], set by [init] (line 65) and not assigned
    again. *)
Definition slackAttachmentsChunkSize : nat := 100.

(** [int64(time.Second)]. *)
Definition time_Second : Z := 1000000000.

Section Handler.
Import events slack.
Context {C : Collaborators}.

(** The values of Go's [error] that reach the handler. *)
Inductive error : Type :=
| JsonError (e : encoding_json.json_error)
| SendError (e : ClientError).

(** One line written through the loggers [Info], [Warning] and [Error]. *)
Inductive LogLine : Type :=
| Info_Println (resp : Response)
| Warning_Println (msg : string)
| Error_Println (err : error).

(** What the handler reads and changes outside its own variables: the wall
    clock, the process environment, the client, and, as a record of its
    effects, the calls of [Send] with their answers and the log lines,
    oldest first. *)
Record World : Type := {
  clock : time_Time;
  environ : string -> string;
  client : Client;
  calls : list (Payload * (Response * option ClientError));
  logged : list LogLine
}.

Definition M (A : Type) : Type := World -> A * World.

Definition ret {A : Type} (a : A) : M A := fun w => (a, w).

Definition bind {A B : Type} (m : M A) (k : A -> M B) : M B :=
  fun w => let (a, w1) := m w in k a w1.

Notation "x <- m ;; k" := (bind m (fun x => k))
  (at level 61, m at next level, right associativity).
Notation "m ;; k" := (bind m (fun _ => k))
  (at level 61, right associativity).

Definition time_Now : M time_Time := fun w => (clock w, w).

Definition os_Getenv (key : string) : M string := fun w => (environ w key, w).

Definition Println (l : LogLine) : M unit := fun w =>
  (tt, {| clock := clock w; environ := environ w; client := client w;
          calls := calls w; logged := logged w ++ [l] |}).

Definition Send (payload : Payload) : M (Response * option ClientError) :=
  fun w =>
    let (c, answer) := Client_Send (client w) payload in
    (answer, {| clock := clock w; environ := environ w; client := c;
                calls := calls w ++ [(payload, answer)]; logged := logged w |}).

(** Lines 85-119: the attachment built for a decoded event. *)
Definition build_attachment (event : CloudWatchEvent time_Time)
           (emrEventDetail : EMREventDetail) : M Attachment :=
  let color := "good" in
  let color := if (Severity emrEventDetail =? "ERROR")%string
               then "danger" else color in
  footer <- os_Getenv "AWS_LAMBDA_FUNCTION_NAME" ;;
  now <- time_Now ;;
  ret {| Color := color;
         Title := DetailType event;
         Text := Message emrEventDetail;
         Footer := footer;
         FooterIcon := "https://d1d05r7k0qlw4w.cloudfront.net/dist-cbe91c5a8477701757ff6752aae4c6f892018972/img/favicon.ico";
         Ts := Z.quot (Time_UnixNano now) time_Second;
         Attachment_Field :=
           [ {| Field_Title := "AccountID"; Field_Value := AccountID event;
                Field_Short := true |};
             {| Field_Title := "Region"; Field_Value := Region event;
                Field_Short := true |};
             {| Field_Title := "State"; Field_Value := State emrEventDetail;
                Field_Short := true |};
             {| Field_Title := "Time"; Field_Value := Time_String (Time event);
                Field_Short := true |} ] |}.

(** Lines 127-142: the body of the loop at index [i].  The indices are Go
    [int]s; a slice that fits in memory is far shorter than [2^63 - 100]
    elements, so [i + slackAttachmentsChunkSize] does not wrap around and
    natural numbers stand for them. *)
Definition send_chunk (slackAttachments : list Attachment) (i : nat) : M unit :=
  let end_ := i + slackAttachmentsChunkSize in
  let end_ := if (List.length slackAttachments <? end_)%nat
              then List.length slackAttachments else end_ in
  let chunkedSlackAttachments := slice slackAttachments i end_ in
  let payload := {| Channel := slackMonitorChannel;
                    Attachments := chunkedSlackAttachments |} in
  answer <- Send payload ;;
  match snd answer with
  | Some err => Println (Error_Println (SendError err))
  | None => Println (Info_Println (fst answer))
  end.

(** Line 126: the loop
    [for i := 0; i < len(slackAttachments); i += slackAttachmentsChunkSize],
    from index [i] on. *)
Equations? send_loop (slackAttachments : list Attachment) (i : nat) : M unit
  by wf (List.length slackAttachments - i) lt :=
  send_loop slackAttachments i with lt_dec i (List.length slackAttachments) => {
    | left _ => send_chunk slackAttachments i ;;
                send_loop slackAttachments (i + slackAttachmentsChunkSize)
    | right _ => ret tt }.
Proof. unfold slackAttachmentsChunkSize. lia. Qed.

(** Lines 123-147: what the handler does with the attachments it has
    collected. *)
Definition dispatch (slackAttachments : list Attachment) : M (option error) :=
  (if negb (List.length slackAttachments =? 0)%nat
   then send_loop slackAttachments 0
   else Println (Warning_Println "No Slack Sent")) ;;
  ret None.

(** Lines 74-148. *)
Definition HandleRequest (ctx : Context) (event : CloudWatchEvent time_Time)
  : M (option error) :=
  let slackAttachments := [] in
  if (Source event =? "aws.emr")%string then
    let emrEventDetail := EMREventDetail_zero in
    let (emrEventDetail, err) := json.Unmarshal (Detail event) emrEventDetail in
    match err with
    | Some err =>
        Println (Error_Println (JsonError err)) ;;
        ret None
    | None =>
        slackAttachment <- build_attachment event emrEventDetail ;;
        let slackAttachments := slackAttachments ++ [slackAttachment] in
        dispatch slackAttachments
    end
  else dispatch slackAttachments.

(** The calls of [Send] and the log lines a run [m] adds to the world [w]. *)
Definition calls_during {A : Type} (m : M A) (w : World)
  : list (Payload * (Response * option ClientError)) :=
  skipn (List.length (calls w)) (calls (snd (m w))).

Definition logged_during {A : Type} (m : M A) (w : World) : list LogLine :=
  skipn (List.length (logged w)) (logged (snd (m w))).

(** The line the loop logs for an answer of [Send] (lines 138-142). *)
Definition log_of_answer (answer : Response * option ClientError) : LogLine :=
  match snd answer with
  | Some err => Error_Println (SendError err)
  | None => Info_Println (fst answer)
  end.

End Handler.

(** ** Notions the properties are stated with *)

Section Reference.
Import events slack.
Context {C : Collaborators}.

(** The number of slices of at most [slackAttachmentsChunkSize] elements a
    list of [len] elements is cut into: [len / 100] rounded up. *)
Definition chunk_count (len : nat) : nat :=
  (len + (slackAttachmentsChunkSize - 1)) / slackAttachmentsChunkSize.

(** The [k]-th such slice of [l], counted from 0. *)
Definition chunk_at {A : Type} (l : list A) (k : nat) : list A :=
  slice l (k * slackAttachmentsChunkSize)
        (Nat.min (k * slackAttachmentsChunkSize + slackAttachmentsChunkSize)
                 (List.length l)).

(** The payload of lines 133-136 for a slice. *)
Definition payload_of (chunk : list Attachment) : Payload :=
  {| Channel := slackMonitorChannel; Attachments := chunk |}.

(** Sending the payloads [ps] one after the other, logging each answer. *)
Fixpoint send_each (ps : list Payload) : M unit :=
  match ps with
  | [] => ret tt
  | p :: r => bind (Send p) (fun answer =>
              bind (Println (log_of_answer answer)) (fun _ => send_each r))
  end.

(** The world after a run that only sends and logs: [new] are the calls it
    made, each logged with [log_of_answer]. *)
Definition extends (w w' : World)
           (new : list (Payload * (Response * option ClientError))) : Prop :=
  clock w' = clock w /\ environ w' = environ w
  /\ calls w' = calls w ++ new
  /\ logged w' = logged w ++ map (fun c => log_of_answer (snd c)) new.

(** The event [event] with another time stamp. *)
Definition with_Time (event : CloudWatchEvent time_Time) (t : time_Time)
  : CloudWatchEvent time_Time :=
  {| Version := Version event; ID := ID event; DetailType := DetailType event;
     Source := Source event; AccountID := AccountID event; Time := t;
     Region := Region event; Resources := Resources event;
     Detail := Detail event |}.

End Reference.

(** main.go, lines 50-62: the three loggers [init] makes, each with the file
    it writes to, its prefix and its flags
    [log.Ldate|log.Ltime|log.Lshortfile]. *)
Inductive File : Type := os_Stdout | os_Stderr.

Record Logger : Type := {
  Logger_out : File;
  Logger_prefix : string;
  Logger_flag : N
}.

Definition log_Ldate : N := 1.
Definition log_Ltime : N := 2.
Definition log_Lshortfile : N := 16.

Definition Info : Logger :=
  {| Logger_out := os_Stdout; Logger_prefix := "[INFO]: ";
     Logger_flag := N.lor (N.lor log_Ldate log_Ltime) log_Lshortfile |}.

Definition Warning : Logger :=
  {| Logger_out := os_Stdout; Logger_prefix := "[WARNING]: ";
     Logger_flag := N.lor (N.lor log_Ldate log_Ltime) log_Lshortfile |}.

Definition Error : Logger :=
  {| Logger_out := os_Stderr; Logger_prefix := "[ERROR]: ";
     Logger_flag := N.lor (N.lor log_Ldate log_Ltime) log_Lshortfile |}.

Section MoreReference.
Import events slack.
Context {C : Collaborators}.

(** The logger a line is written through. *)
Definition logger_of (l : LogLine) : Logger :=
  match l with
  | Info_Println _ => Info
  | Warning_Println _ => Warning
  | Error_Println _ => Error
  end.

(** The client fed the payloads [ps] one after the other from the state
    [c]: the calls with its answers, and its state at the end. *)
Fixpoint client_run (c : Client) (ps : list Payload)
  : list (Payload * (Response * option ClientError)) * Client :=
  match ps with
  | [] => ([], c)
  | p :: r =>
      let (c1, answer) := Client_Send c p in
      let (rest, c2) := client_run c1 r in
      ((p, answer) :: rest, c2)
  end.

(** The slices of [l], in order. *)
Definition chunks {A : Type} (l : list A) : list (list A) :=
  map (chunk_at l) (seq 0 (chunk_count (List.length l))).

(** The world [w] after the calls [new], made and logged in order, have
    left the client in the state [c]. *)
Definition after_calls (w : World) (c : Client)
           (new : list (Payload * (Response * option ClientError))) : World :=
  {| clock := clock w; environ := environ w; client := c;
     calls := calls w ++ new;
     logged := logged w ++ map (fun call => log_of_answer (snd call)) new |}.

(** Two events with the same fields, but for [Version], [ID] and
    [Resources]. *)
Definition same_read_fields (e1 e2 : CloudWatchEvent time_Time) : Prop :=
  Source e1 = Source e2 /\ Detail e1 = Detail e2
  /\ DetailType e1 = DetailType e2 /\ AccountID e1 = AccountID e2
  /\ Region e1 = Region e2 /\ Time e1 = Time e2.

End MoreReference.

(** The name [UnmarshalTypeError] gives a JSON value in its field [Value]. *)
Definition kind_of (v : encoding_json.json) : string :=
  match v with
  | encoding_json.JNull => "null"
  | encoding_json.JBool _ => "bool"
  | encoding_json.JNumber _ => "number"
  | encoding_json.JString _ => "string"
  | encoding_json.JArray _ => "array"
  | encoding_json.JObject _ => "object"
  end.

(** A byte that stands for itself in a JSON string literal and is one
    character: printable ASCII but for the quote and the backslash. *)
Definition plainb (c : byte) : bool :=
  (32 <=? encoding_json.code c)%N && (encoding_json.code c <? 128)%N
  && negb (Byte.eqb c encoding_json.quote)
  && negb (Byte.eqb c encoding_json.backslash).

Definition plain (s : string) : Prop :=
  forallb plainb (list_byte_of_string s) = true.

(** The JSON text of a string of plain bytes, and of the member of an
    object with such a string as its value. *)
Definition string_text (s : string) : list byte :=
  encoding_json.quote :: list_byte_of_string s ++ [encoding_json.quote].

Definition member_text (key value : string) : list byte :=
  string_text key ++ list_byte_of_string ":" ++ string_text value.

(** The JSON text of a detail with its three fields:
    an opening brace, the members severity, state and message separated by
    commas, a closing brace. *)
Definition detail_text (d : EMREventDetail) : list byte :=
  list_byte_of_string "{" ++ member_text "severity" (Severity d)
  ++ list_byte_of_string "," ++ member_text "state" (State d)
  ++ list_byte_of_string "," ++ member_text "message" (Message d)
  ++ list_byte_of_string "}".

(** What is left of the input [s] after a scanner has read from it. *)
Definition rest_le {A : Type} (k : option (A * list byte)) (s : list byte) : Prop :=
  match k with
  | Some (_, r) => List.length r <= List.length s
  | None => True
  end.

Definition rest_lt {A : Type} (k : option (A * list byte)) (s : list byte) : Prop :=
  match k with
  | Some (_, r) => List.length r < List.length s
  | None => True
  end.

(** [namesb key f]: the object key [key] is the JSON name of the field [f]
    up to the case of its letters (with the long s counted as an s). *)
Definition namesb (key : list byte) (f : EMREventDetail_field) : bool :=
  encoding_json.bytes_eqb (encoding_json.foldName key)
                 (encoding_json.foldName (list_byte_of_string (json.tag_of f))).

(** The JSON values a Go [string] takes without an error. *)
Definition storable (v : encoding_json.json) : bool :=
  match v with
  | encoding_json.JString _ | encoding_json.JNull => true
  | _ => false
  end.

Module Examples.
Import events slack encoding_json.

(** JSON texts, written without quote characters in the Rocq source. *)
Definition quoted (s : string) : list byte :=
  x22 :: list_byte_of_string s ++ [x22].

Definition member (k : string) (v : list byte) : list byte :=
  quoted k ++ [x3a] ++ v.

Definition object (ms : list (list byte)) : list byte :=
  [x7b] ++ List.concat (match ms with
                        | [] => []
                        | m :: r => m :: map (fun x => x2c :: x) r
                        end) ++ [x7d].

(** Two instants, the time of the event and the time of the invocation a
    little later, with their [int64] counts of nanoseconds since the epoch. *)
Inductive instant : Type := event_time | invocation_time.

Definition nanos (t : instant) : Z :=
  match t with
  | event_time => 1527854400000000000
  | invocation_time => 1527854401234567890
  end.

Definition nanos_int64 (t : instant) : (- 2 ^ 63 <= nanos t < 2 ^ 63)%Z.
Proof. destruct t; cbn [nanos]; lia. Qed.

(** A client that numbers its calls and fails on the even ones: the
    response is the number of the call. *)
#[local] Instance flaky : Collaborators := {|
  time_Time := instant;
  Time_String := fun t =>
    match t with
    | event_time => "2018-06-01 12:00:00 +0000 UTC"
    | invocation_time => "2018-06-01 12:00:01.23456789 +0000 UTC"
    end;
  Time_UnixNano := nanos;
  Time_UnixNano_int64 := nanos_int64;
  Context := unit;
  Client := nat;
  Response := nat;
  ClientError := string;
  Client_Send := fun c _ => (S c, (c, if Nat.even c then Some "timeout" else None));
  slackMonitorChannel := "#emr"
|}.

Definition w0 : World :=
  {| clock := invocation_time; environ := fun k => k; client := 0%nat;
     calls := []; logged := [] |}.

Definition ev (src : string) (d : list byte) : CloudWatchEvent instant :=
  {| Version := "0"; ID := "id"; DetailType := "EMR Cluster State Change";
     Source := src; AccountID := "123"; Time := event_time; Region := "us-east-1";
     Resources := []; Detail := d |}.

Definition detailA : list byte :=
  object [member "severity" (quoted "ERROR");
          member "state" (quoted "TERMINATED");
          member "message" (quoted "boom")].

(** A detail with a key in upper case, a key that names no field, and a
    [null]. *)
Definition detailB : list byte :=
  object [member "SEVERITY" (quoted "ERROR");
          member "cluster" (list_byte_of_string "[1, 2]");
          member "state" (list_byte_of_string "null")].

(** A detail whose severity is a number. *)
Definition detailC : list byte :=
  object [member "severity" (list_byte_of_string "5")].

(** A detail that spells its only key in upper case. *)
Definition detailD : list byte :=
  object [member "SEVERITY" (quoted "ERROR")].

Definition att (n : nat) : Attachment :=
  {| Color := "good"; Title := ""; Text := ""; Footer := ""; FooterIcon := "";
     Ts := Z.of_nat n; Attachment_Field := [] |}.

(** Scenario A of the specification and what its detail decodes to. *)
Definition eventA : CloudWatchEvent instant := ev "aws.emr" detailA.

Definition decodedA : EMREventDetail :=
  {| Severity := "ERROR"; State := "TERMINATED"; Message := "boom" |}.

(** Scenario B: another source.  Scenario D: a detail that is not JSON. *)
Definition eventB : CloudWatchEvent instant := ev "aws.ec2" detailA.

Definition eventD : CloudWatchEvent instant :=
  ev "aws.emr" (list_byte_of_string "{invalid").

(** A matching event whose detail has a number as its severity, one whose
    detail is blank, one whose detail is [null], and one whose detail is an
    array. *)
Definition eventC : CloudWatchEvent instant := ev "aws.emr" detailC.

Definition eventBlank : CloudWatchEvent instant :=
  ev "aws.emr" (list_byte_of_string "  ").

Definition eventNull : CloudWatchEvent instant :=
  ev "aws.emr" (list_byte_of_string " null ").


(** A detail whose second member, of key Severity, holds a number, and
    whose third member holds an array. *)
Definition detailE : list byte :=
  object [member "state" (quoted "RUNNING");
          member "Severity" (list_byte_of_string "5");
          member "message" (list_byte_of_string "[]")].

(** The event of scenario A under another identifier and version, with a
    resource. *)
Definition eventA' : CloudWatchEvent instant :=
  {| Version := "1"; ID := "other"; DetailType := "EMR Cluster State Change";
     Source := "aws.emr"; AccountID := "123"; Time := event_time;
     Region := "us-east-1"; Resources := ["arn:aws:emr"];
     Detail := detailA |}.

(** 7 and 100 attachments. *)
Definition atts7 : list Attachment := map att (seq 0 7).

Definition atts100 : list Attachment := map att (seq 0 100).

(** 250 attachments, numbered by their time stamps. *)
Definition atts250 : list Attachment := map att (seq 0 250).

End Examples.

(* ===================================================================== *)
(** ** Properties                                                        *)
(* ===================================================================== *)

Section Lists.
Context {A : Type}.

Lemma skipn_length_app (l l' : list A) : skipn (List.length l) (l ++ l') = l'.
Proof. induction l; simpl; auto. Qed.

Lemma slice_length (l : list A) (i j : nat) :
  i <= j -> j <= List.length l -> List.length (slice l i j) = j - i.
Proof.
  intros Hij Hj. unfold slice.
  rewrite length_firstn, length_skipn. lia.
Qed.

(** Consecutive slices of width [c] from index [i] on make up the rest of
    the list. *)
Lemma concat_slices (c : nat) (l : list A) :
  forall n i, List.length l - i <= n * c ->
    List.concat (map (fun k => slice l (i + k * c)
                                        (Nat.min (i + k * c + c) (List.length l)))
                     (seq 0 n)) = skipn i l.
Proof.
  induction n as [|n IH]; intros i Hn.
  - simpl. symmetry. apply skipn_all2. lia.
  - cbn [seq map List.concat]. rewrite <- seq_shift, map_map.
    replace (i + 0 * c) with i by lia.
    rewrite (map_ext _ (fun k => slice l (i + c + k * c)
                                       (Nat.min (i + c + k * c + c) (List.length l))))
      by (intros k; f_equal; lia).
    rewrite (IH (i + c)) by lia.
    unfold slice.
    destruct (Nat.le_gt_cases (i + c) (List.length l)) as [Hle|Hgt].
    + rewrite Nat.min_l by lia. replace (i + c - i) with c by lia.
      rewrite Nat.add_comm, <- skipn_skipn. apply firstn_skipn.
    + rewrite Nat.min_r by lia.
      rewrite (skipn_all2 (n := i + c)) by lia. rewrite app_nil_r.
      apply firstn_all2. rewrite length_skipn. lia.
Qed.

End Lists.

Section ChunkCount.

Lemma chunk_size_pos : 0 < slackAttachmentsChunkSize.
Proof. unfold slackAttachmentsChunkSize. lia. Qed.

Lemma chunk_count_0 : chunk_count 0 = 0.
Proof. reflexivity. Qed.

Lemma chunk_count_step (x : nat) :
  0 < x -> chunk_count x = S (chunk_count (x - slackAttachmentsChunkSize)).
Proof.
  intros Hx. unfold chunk_count, slackAttachmentsChunkSize.
  destruct (Nat.le_gt_cases x 100) as [Hle|Hgt].
  - replace (x - 100) with 0 by lia.
    replace (x + (100 - 1)) with ((x - 1) + 1 * 100) by lia.
    rewrite Nat.div_add by lia.
    rewrite (Nat.div_small (x - 1)) by lia. reflexivity.
  - replace (x + (100 - 1)) with ((x - 100 + (100 - 1)) + 1 * 100) by lia.
    rewrite Nat.div_add by lia. lia.
Qed.

(** [chunk_count len] is [len / 100] rounded up. *)
Lemma chunk_count_ceil (len : nat) :
  len <= chunk_count len * slackAttachmentsChunkSize
  /\ chunk_count len * slackAttachmentsChunkSize < len + slackAttachmentsChunkSize.
Proof.
  unfold chunk_count, slackAttachmentsChunkSize.
  pose proof (Nat.div_mod_eq (len + (100 - 1)) 100) as E.
  pose proof (Nat.mod_upper_bound (len + (100 - 1)) 100) as B.
  lia.
Qed.

End ChunkCount.

Section HandlerFacts.
Import events slack.
Context {C : Collaborators}.

#[local] Arguments slackAttachmentsChunkSize : simpl never.

Lemma send_loop_step (atts : list Attachment) (i : nat) :
  send_loop atts i =
  if (i <? List.length atts)%nat
  then bind (send_chunk atts i)
            (fun _ => send_loop atts (i + slackAttachmentsChunkSize))
  else ret tt.
Proof.
  match goal with |- _ = ?r => remember r as rhs eqn:Hr end.
  simp send_loop. subst rhs.
  destruct (lt_dec i (List.length atts)) as [Hlt|Hge].
  - rewrite (proj2 (Nat.ltb_lt _ _) Hlt). reflexivity.
  - rewrite (proj2 (Nat.ltb_ge _ _)) by lia. reflexivity.
Qed.

Lemma send_chunk_payload (atts : list Attachment) (i : nat) (w : World) :
  send_chunk atts i w =
  bind (Send (payload_of
                (slice atts i (Nat.min (i + slackAttachmentsChunkSize)
                                       (List.length atts)))))
       (fun answer => Println (log_of_answer answer)) w.
Proof.
  unfold send_chunk, payload_of.
  destruct (List.length atts <? i + slackAttachmentsChunkSize)%nat eqn:E;
    [apply Nat.ltb_lt in E; rewrite Nat.min_r by lia
    |apply Nat.ltb_ge in E; rewrite Nat.min_l by lia].
  all: unfold bind; destruct (Send _ w) as [answer w1].
  all: unfold log_of_answer; destruct (snd answer); reflexivity.
Qed.

(** The slice expression of line 132 is within bounds at every round of the
    loop, so it does not panic. *)
Lemma slice_in_bounds (atts : list Attachment) (i : nat) :
  i < List.length atts ->
  let end_ := i + slackAttachmentsChunkSize in
  let end_ := if (List.length atts <? end_)%nat then List.length atts else end_ in
  i <= end_ <= List.length atts.
Proof.
  intros Hi. cbv zeta.
  destruct (List.length atts <? i + slackAttachmentsChunkSize)%nat eqn:E.
  - lia.
  - apply Nat.ltb_ge in E. lia.
Qed.

(** The loop from index [i] on sends the slices that start at [i],
    [i + 100], ..., one after the other, whatever the client answers. *)
Lemma send_loop_trace (atts : list Attachment) :
  forall n i w,
    n = chunk_count (List.length atts - i) ->
    send_loop atts i w =
    send_each
      (map (fun k => payload_of
                       (slice atts (i + k * slackAttachmentsChunkSize)
                              (Nat.min (i + k * slackAttachmentsChunkSize
                                        + slackAttachmentsChunkSize)
                                       (List.length atts))))
           (seq 0 n)) w.
Proof.
  induction n as [|n IH]; intros i w Hn; rewrite send_loop_step.
  - destruct (i <? List.length atts)%nat eqn:E; [|reflexivity].
    apply Nat.ltb_lt in E.
    rewrite chunk_count_step in Hn by lia. discriminate.
  - destruct (i <? List.length atts)%nat eqn:E.
    + apply Nat.ltb_lt in E.
      rewrite chunk_count_step in Hn by lia. injection Hn as Hn.
      cbn [seq map send_each]. rewrite <- seq_shift, map_map.
      replace (i + 0 * slackAttachmentsChunkSize) with i by lia.
      unfold bind at 1. rewrite send_chunk_payload.
      unfold bind. destruct (Send _ w) as [answer w1].
      destruct (Println (log_of_answer answer) w1) as [[] w2].
      rewrite (IH (i + slackAttachmentsChunkSize) w2)
        by (rewrite Hn; f_equal; lia).
      f_equal. apply map_ext. intros k.
      unfold payload_of. do 2 f_equal; lia.
    + apply Nat.ltb_ge in E.
      replace (List.length atts - i) with 0 in Hn by lia.
      rewrite chunk_count_0 in Hn. discriminate.
Qed.

Lemma send_each_extends (ps : list Payload) :
  forall w, exists new,
    extends w (snd (send_each ps w)) new /\ map fst new = ps.
Proof.
  induction ps as [|p r IH]; intros w.
  - exists []. cbn. unfold extends. rewrite !app_nil_r. auto.
  - cbn [send_each]. unfold bind, Send, Println.
    destruct (Client_Send (client w) p) as [c answer]. cbn.
    match goal with |- context [send_each r ?w1] =>
      destruct (IH w1) as (new & (Hc & He & Hcalls & Hlog) & Hps) end.
    cbn in Hc, He, Hcalls, Hlog.
    exists ((p, answer) :: new). unfold extends. cbn [map fst snd].
    rewrite Hc, He, Hcalls, Hlog, <- !app_assoc, Hps. auto.
Qed.

(** Lines 123-147 on a list that is not empty: the slices are sent in
    order, each answer is logged, and the result is [nil]. *)
Lemma dispatch_nonempty (atts : list Attachment) (w : World) :
  atts <> [] ->
  exists new,
    fst (dispatch atts w) = None
    /\ extends w (snd (dispatch atts w)) new
    /\ map fst new =
       map (fun k => payload_of (chunk_at atts k))
           (seq 0 (chunk_count (List.length atts))).
Proof.
  intros Hne. unfold dispatch, bind.
  destruct (List.length atts =? 0)%nat eqn:E.
  - apply Nat.eqb_eq, length_zero_iff_nil in E. contradiction.
  - cbn [negb].
    rewrite (send_loop_trace atts (chunk_count (List.length atts)) 0 w)
      by (f_equal; lia).
    match goal with |- context [send_each ?ps w] =>
      destruct (send_each_extends ps w) as (new & Hext & Hps);
      destruct (send_each ps w) as [[] w'] end.
    exists new. cbn [fst snd] in *. repeat split; try apply Hext.
    rewrite Hps. apply map_ext. intros k. reflexivity.
Qed.

(** Lines 144-146 and 147: nothing to send. *)
Lemma dispatch_empty (w : World) :
  dispatch [] w =
  (None, {| clock := clock w; environ := environ w; client := client w;
            calls := calls w;
            logged := logged w ++ [Warning_Println "No Slack Sent"] |}).
Proof. reflexivity. Qed.

Lemma extends_calls_during {A : Type} (m : M A) (w : World) new :
  extends w (snd (m w)) new -> calls_during m w = new.
Proof.
  intros (_ & _ & Hc & _). unfold calls_during.
  rewrite Hc. apply skipn_length_app.
Qed.

Lemma extends_logged_during {A : Type} (m : M A) (w : World) new :
  extends w (snd (m w)) new ->
  logged_during m w = map (fun c => log_of_answer (snd c)) new.
Proof.
  intros (_ & _ & _ & Hl). unfold logged_during.
  rewrite Hl. apply skipn_length_app.
Qed.

Lemma unchanged_calls_during {A : Type} (m : M A) (w : World) :
  calls (snd (m w)) = calls w -> calls_during m w = [].
Proof.
  intros E. unfold calls_during. rewrite E. apply skipn_all.
Qed.

Lemma dispatch_returns_nil (atts : list Attachment) (w : World) :
  fst (dispatch atts w) = None.
Proof.
  unfold dispatch, bind.
  match goal with |- context [let (_, _) := ?m in _] => destruct m end.
  reflexivity.
Qed.

(** Lines 85-119 read the environment and the clock and change nothing. *)
Lemma build_attachment_pure (event : CloudWatchEvent time_Time) (d : EMREventDetail)
      (w : World) :
  snd (build_attachment event d w) = w.
Proof. reflexivity. Qed.

(** A matching event whose detail decodes: one attachment is built and sent
    in one payload. *)
Lemma HandleRequest_decoded (ctx : Context) (event : CloudWatchEvent time_Time)
      (w : World) (d : EMREventDetail) :
  Source event = "aws.emr" ->
  json.Unmarshal (Detail event) EMREventDetail_zero = (d, None) ->
  exists answer,
    fst (HandleRequest ctx event w) = None
    /\ extends w (snd (HandleRequest ctx event w))
               [(payload_of [fst (build_attachment event d w)], answer)].
Proof.
  intros Hsrc Hdec. unfold HandleRequest.
  rewrite Hsrc, Hdec. cbn [String.eqb Ascii.eqb Bool.eqb app].
  unfold bind.
  destruct (build_attachment event d w) as [a w1] eqn:Hb.
  pose proof (build_attachment_pure event d w) as Hw.
  rewrite Hb in Hw. cbn [snd fst] in *. subst w1.
  destruct (dispatch_nonempty [a] w) as (new & Hnil & Hext & Hps);
    [discriminate|].
  change (map _ (seq 0 (chunk_count (List.length [a]))))
    with [payload_of [a]] in Hps.
  destruct new as [|[p answer] [|? ?]]; try discriminate.
  cbn in Hps. injection Hps as ->.
  exists answer. split; assumption.
Qed.

(** A matching event whose detail does not decode: the error is logged and
    the handler returns. *)
Lemma HandleRequest_undecoded (ctx : Context) (event : CloudWatchEvent time_Time)
      (w : World) (d : EMREventDetail) (err : encoding_json.json_error) :
  Source event = "aws.emr" ->
  json.Unmarshal (Detail event) EMREventDetail_zero = (d, Some err) ->
  HandleRequest ctx event w =
  (None, {| clock := clock w; environ := environ w; client := client w;
            calls := calls w;
            logged := logged w ++ [Error_Println (JsonError err)] |}).
Proof.
  intros Hsrc Hdec. unfold HandleRequest. rewrite Hsrc, Hdec. reflexivity.
Qed.

(** An event of another source: nothing is collected. *)
Lemma HandleRequest_other_source (ctx : Context) (event : CloudWatchEvent time_Time)
      (w : World) :
  Source event <> "aws.emr" ->
  HandleRequest ctx event w = dispatch [] w.
Proof.
  intros Hsrc. unfold HandleRequest.
  apply String.eqb_neq in Hsrc. rewrite Hsrc. reflexivity.
Qed.

(** C1: whatever the event, the decoder says and the client answers, the
    handler returns [nil] to the runtime; so does the dispatch of any list of
    attachments, whatever the answers to its sends. *)
Theorem HandleRequest_returns_nil (ctx : Context) (event : CloudWatchEvent time_Time)
        (w : World) :
  fst (HandleRequest ctx event w) = None
  /\ forall atts w', fst (dispatch atts w') = None.
Proof.
  split; [|intros; apply dispatch_returns_nil].
  unfold HandleRequest.
  destruct (Source event =? "aws.emr")%string; [|apply dispatch_returns_nil].
  destruct (json.Unmarshal (Detail event) EMREventDetail_zero) as [d [err|]].
  - reflexivity.
  - unfold bind at 1. destruct (build_attachment event d w) as [a w1].
    apply dispatch_returns_nil.
Qed.

Lemma chunk_at_length {A : Type} (l : list A) (k : nat) :
  List.length (chunk_at l k) <= slackAttachmentsChunkSize.
Proof.
  unfold chunk_at, slice. rewrite length_firstn. lia.
Qed.

Lemma chunk_at_full {A : Type} (l : list A) (k : nat) :
  S k < chunk_count (List.length l) ->
  List.length (chunk_at l k) = slackAttachmentsChunkSize.
Proof.
  intros Hk. pose proof (chunk_count_ceil (List.length l)) as [_ Hlt].
  assert (k * slackAttachmentsChunkSize + slackAttachmentsChunkSize
          < List.length l) by nia.
  unfold chunk_at. rewrite Nat.min_l by lia.
  rewrite slice_length; lia.
Qed.

Lemma nth_chunks {A : Type} (l : list A) (n k : nat) :
  k < n -> nth k (map (chunk_at l) (seq 0 n)) [] = chunk_at l k.
Proof.
  intros Hk.
  rewrite (nth_indep _ [] (chunk_at l 0)) by (rewrite length_map, length_seq; lia).
  rewrite map_nth, seq_nth by lia. reflexivity.
Qed.

(** The slices the dispatch of a list that is not empty sends. *)
Lemma dispatch_sent (atts : list Attachment) (w : World) :
  atts <> [] ->
  map (fun c => Attachments (fst c)) (calls_during (dispatch atts) w)
  = map (chunk_at atts) (seq 0 (chunk_count (List.length atts))).
Proof.
  intros Hne.
  destruct (dispatch_nonempty atts w Hne) as (new & _ & Hext & Hps).
  rewrite (extends_calls_during _ _ _ Hext).
  rewrite <- (map_map fst Attachments), Hps, map_map. reflexivity.
Qed.

(** C2: for a list of [L > 0] attachments the dispatch loop makes
    [L / 100] rounded up calls of [Send]; every call carries at most 100
    attachments; the [k]-th carries the slice [[100 k : min (100 k + 100) L]];
    every call but the last carries exactly 100; and the slices, one after
    the other, are the list. *)
Theorem dispatch_partitions (atts : list Attachment) (w : World) :
  0 < List.length atts ->
  let sent := map (fun c => Attachments (fst c))
                  (calls_during (dispatch atts) w) in
  List.length sent = (List.length atts + 99) / 100
  /\ Forall (fun s => List.length s <= 100) sent
  /\ (forall k, k < List.length sent ->
        nth k sent [] = slice atts (k * 100)
                              (Nat.min (k * 100 + 100) (List.length atts)))
  /\ (forall k, S k < List.length sent -> List.length (nth k sent []) = 100)
  /\ List.concat sent = atts.
Proof.
  intros Hlen sent.
  assert (Hne : atts <> []) by (destruct atts; [cbn in Hlen; lia|discriminate]).
  assert (Hsent : sent = map (chunk_at atts)
                             (seq 0 (chunk_count (List.length atts))))
    by apply (dispatch_sent atts w Hne).
  assert (Hn : List.length sent = chunk_count (List.length atts))
    by (rewrite Hsent, length_map, length_seq; reflexivity).
  split; [exact Hn|]. rewrite Hn. clear Hn. rewrite Hsent.
  split; [|split; [|split]].
  - apply Forall_forall. intros s Hs. apply in_map_iff in Hs as (k & <- & _).
    apply chunk_at_length.
  - intros k Hk. rewrite nth_chunks by exact Hk. reflexivity.
  - intros k Hk. rewrite nth_chunks by lia. apply (chunk_at_full atts k Hk).
  - pose proof (chunk_count_ceil (List.length atts)) as [Hle _].
    pose proof (concat_slices slackAttachmentsChunkSize atts
                  (chunk_count (List.length atts)) 0) as Hcat.
    cbn [skipn] in Hcat. etransitivity; [|apply Hcat; lia].
    reflexivity.
Qed.

(** C4: in the dispatch of a list that is not empty, the payloads sent are
    the slices of the list, each once and in order, whatever the client
    answers; every answer is logged, an error as an error; and after a call
    that failed, the next slice, if there is one, is sent all the same. *)
Theorem dispatch_continues_after_failure (atts : list Attachment) (w : World) :
  atts <> [] ->
  let cs := calls_during (dispatch atts) w in
  let ls := logged_during (dispatch atts) w in
  map fst cs = map (fun k => payload_of (chunk_at atts k))
                   (seq 0 (chunk_count (List.length atts)))
  /\ ls = map (fun c => log_of_answer (snd c)) cs
  /\ forall i p resp err,
       nth_error cs i = Some (p, (resp, Some err)) ->
       nth_error ls i = Some (Error_Println (SendError err))
       /\ (S i < chunk_count (List.length atts) ->
           exists answer,
             nth_error cs (S i) = Some (payload_of (chunk_at atts (S i)), answer)).
Proof.
  intros Hne cs ls.
  destruct (dispatch_nonempty atts w Hne) as (new & _ & Hext & Hps).
  assert (Hcs : cs = new) by apply (extends_calls_during _ _ _ Hext).
  assert (Hls : ls = map (fun c => log_of_answer (snd c)) new)
    by apply (extends_logged_during _ _ _ Hext).
  rewrite Hcs, Hls. clear Hcs Hls cs ls.
  split; [exact Hps|]. split; [reflexivity|].
  intros i p resp err Hi. split.
  - rewrite nth_error_map, Hi. reflexivity.
  - intros Hnext.
    assert (Hp : nth_error (map fst new) (S i)
                 = Some (payload_of (chunk_at atts (S i)))).
    { rewrite Hps, nth_error_map, nth_error_seq.
      destruct (Nat.ltb_spec (S i) (chunk_count (List.length atts)));
        [reflexivity|lia]. }
    rewrite nth_error_map in Hp.
    destruct (nth_error new (S i)) as [[p' answer]|]; [|discriminate].
    cbn in Hp. injection Hp as ->. exists answer. reflexivity.
Qed.

(** C5: an event of source aws.emr whose detail is not a JSON text: the
    decoder returns a syntax error, the handler logs it, sends nothing,
    changes nothing else and returns [nil]. *)
Theorem HandleRequest_malformed_detail (ctx : Context)
        (event : CloudWatchEvent time_Time) (w : World) :
  Source event = "aws.emr" ->
  encoding_json.parse (Detail event) = None ->
  snd (json.Unmarshal (Detail event) EMREventDetail_zero) = Some encoding_json.SyntaxError
  /\ HandleRequest ctx event w =
     (None, {| clock := clock w; environ := environ w; client := client w;
               calls := calls w;
               logged := logged w ++ [Error_Println (JsonError encoding_json.SyntaxError)] |})
  /\ calls_during (HandleRequest ctx event) w = []
  /\ logged_during (HandleRequest ctx event) w
     = [Error_Println (JsonError encoding_json.SyntaxError)].
Proof.
  intros Hsrc Hparse.
  assert (Hdec : json.Unmarshal (Detail event) EMREventDetail_zero
                 = (EMREventDetail_zero, Some encoding_json.SyntaxError))
    by (unfold json.Unmarshal; rewrite Hparse; reflexivity).
  pose proof (HandleRequest_undecoded ctx event w _ _ Hsrc Hdec) as Hrun.
  split; [rewrite Hdec; reflexivity|]. split; [exact Hrun|]. split.
  - apply unchanged_calls_during. rewrite Hrun. reflexivity.
  - unfold logged_during. rewrite Hrun. apply skipn_length_app.
Qed.

(** C6: an event of another source than aws.emr: no attachment is built,
    nothing is sent, the warning is logged and the handler returns [nil]. *)
Theorem HandleRequest_ignores_other_sources (ctx : Context)
        (event : CloudWatchEvent time_Time) (w : World) :
  Source event <> "aws.emr" ->
  HandleRequest ctx event w =
  (None, {| clock := clock w; environ := environ w; client := client w;
            calls := calls w;
            logged := logged w ++ [Warning_Println "No Slack Sent"] |})
  /\ calls_during (HandleRequest ctx event) w = []
  /\ logged_during (HandleRequest ctx event) w = [Warning_Println "No Slack Sent"].
Proof.
  intros Hsrc.
  pose proof (HandleRequest_other_source ctx event w Hsrc) as Hrun.
  rewrite dispatch_empty in Hrun.
  split; [exact Hrun|]. split.
  - apply unchanged_calls_during. rewrite Hrun. reflexivity.
  - unfold logged_during. rewrite Hrun. apply skipn_length_app.
Qed.

(** What a matching event whose detail decodes makes the handler send. *)
Lemma HandleRequest_sends_built (ctx : Context) (event : CloudWatchEvent time_Time)
      (w : World) (d : EMREventDetail) :
  Source event = "aws.emr" ->
  json.Unmarshal (Detail event) EMREventDetail_zero = (d, None) ->
  exists answer,
    calls_during (HandleRequest ctx event) w
    = [(payload_of [fst (build_attachment event d w)], answer)].
Proof.
  intros Hsrc Hdec.
  destruct (HandleRequest_decoded ctx event w d Hsrc Hdec) as (answer & _ & Hext).
  exists answer. apply (extends_calls_during _ _ _ Hext).
Qed.

Lemma quot_truncates (a b : Z) :
  (0 < b)%Z ->
  (Z.abs (Z.quot a b * b) <= Z.abs a /\ Z.abs (a - Z.quot a b * b) < b)%Z.
Proof.
  intros Hb.
  destruct (Z.le_gt_cases 0 a) as [Ha|Ha].
  - pose proof (Z.quot_rem' a b) as E.
    pose proof (Z.rem_bound_pos a b Ha Hb).
    pose proof (Z.quot_pos a b Ha Hb). nia.
  - pose proof (Z.quot_rem' (- a) b) as E.
    pose proof (Z.rem_bound_pos (- a) b) as R.
    pose proof (Z.quot_pos (- a) b) as Q.
    rewrite Z.quot_opp_l, Z.rem_opp_l in * by lia. nia.
Qed.

(** The quotient of an [int64] by [time.Second] is an [int64]. *)
Lemma quot_Second_int64 (a : Z) :
  (- 2 ^ 63 <= a < 2 ^ 63)%Z ->
  (- 2 ^ 63 <= Z.quot a time_Second < 2 ^ 63)%Z.
Proof.
  intros Ha. pose proof (quot_truncates a time_Second eq_refl) as [H _].
  unfold time_Second in *. lia.
Qed.

(** C3: the attachment sent for a decoded detail has the color danger
    exactly when the severity is the string ERROR, and the color good for
    every other severity; there is no third color. *)
Theorem HandleRequest_color (ctx : Context) (event : CloudWatchEvent time_Time)
        (w : World) (d : EMREventDetail) :
  Source event = "aws.emr" ->
  json.Unmarshal (Detail event) EMREventDetail_zero = (d, None) ->
  exists a answer,
    calls_during (HandleRequest ctx event) w = [(payload_of [a], answer)]
    /\ (Color a = "danger" <-> Severity d = "ERROR")
    /\ (Color a = "good" <-> Severity d <> "ERROR")
    /\ (Color a = "danger" \/ Color a = "good").
Proof.
  intros Hsrc Hdec.
  destruct (HandleRequest_sends_built ctx event w d Hsrc Hdec) as (answer & Hc).
  exists (fst (build_attachment event d w)), answer.
  split; [exact Hc|]. cbn [build_attachment bind os_Getenv time_Now ret fst Color].
  destruct (String.eqb_spec (Severity d) "ERROR") as [E|E].
  - split; [split; auto|].
    split; [split; [discriminate|intros N; contradiction]|left; reflexivity].
  - split; [split; [discriminate|intros N; contradiction]|].
    split; [split; auto|right; reflexivity].
Qed.

(** C8: the attachment sent for a matching event that decodes has the
    detail type of the event as its title, the message of the detail as its
    text, and the four fields AccountID, Region, State and Time, in this
    order and all short, with the account, the region, the state and the
    rendered time of the event as values, whatever these values are. *)
Theorem HandleRequest_attachment_shape (ctx : Context)
        (event : CloudWatchEvent time_Time) (w : World) (d : EMREventDetail) :
  Source event = "aws.emr" ->
  json.Unmarshal (Detail event) EMREventDetail_zero = (d, None) ->
  exists a answer,
    calls_during (HandleRequest ctx event) w
    = [({| Channel := slackMonitorChannel; Attachments := [a] |}, answer)]
    /\ Title a = DetailType event
    /\ Text a = Message d
    /\ Attachment_Field a =
       [ {| Field_Title := "AccountID"; Field_Value := AccountID event;
            Field_Short := true |};
         {| Field_Title := "Region"; Field_Value := Region event;
            Field_Short := true |};
         {| Field_Title := "State"; Field_Value := State d;
            Field_Short := true |};
         {| Field_Title := "Time"; Field_Value := Time_String (Time event);
            Field_Short := true |} ].
Proof.
  intros Hsrc Hdec.
  destruct (HandleRequest_sends_built ctx event w d Hsrc Hdec) as (answer & Hc).
  exists (fst (build_attachment event d w)), answer.
  split; [exact Hc|]. repeat split.
Qed.

(** C9: the time stamp of the attachment sent is the reading of the wall
    clock in nanoseconds divided by 10^9 and truncated towards zero, an
    [int64], and it is the same whatever the time of the event. *)
Theorem HandleRequest_timestamp (ctx : Context) (event : CloudWatchEvent time_Time)
        (w : World) (d : EMREventDetail) :
  Source event = "aws.emr" ->
  json.Unmarshal (Detail event) EMREventDetail_zero = (d, None) ->
  exists a answer,
    calls_during (HandleRequest ctx event) w = [(payload_of [a], answer)]
    /\ Ts a = Z.quot (Time_UnixNano (clock w)) 1000000000
    /\ (Z.abs (Ts a * 1000000000) <= Z.abs (Time_UnixNano (clock w)))%Z
    /\ (Z.abs (Time_UnixNano (clock w) - Ts a * 1000000000) < 1000000000)%Z
    /\ (- 2 ^ 63 <= Ts a < 2 ^ 63)%Z
    /\ forall t, exists a' answer',
         calls_during (HandleRequest ctx (with_Time event t)) w
         = [(payload_of [a'], answer')]
         /\ Ts a' = Ts a.
Proof.
  intros Hsrc Hdec.
  destruct (HandleRequest_sends_built ctx event w d Hsrc Hdec) as (answer & Hc).
  exists (fst (build_attachment event d w)), answer.
  split; [exact Hc|]. split; [reflexivity|].
  cbn [build_attachment bind os_Getenv time_Now ret fst Ts].
  pose proof (quot_truncates (Time_UnixNano (clock w)) time_Second eq_refl)
    as [H1 H2].
  split; [exact H1|]. split; [exact H2|].
  split; [apply quot_Second_int64, Time_UnixNano_int64|].
  intros t.
  destruct (HandleRequest_sends_built ctx (with_Time event t) w d Hsrc Hdec)
    as (answer' & Hc').
  exists (fst (build_attachment (with_Time event t) d w)), answer'.
  split; [exact Hc'|reflexivity].
Qed.

(** C10: one invocation makes at most one call of [Send], and a payload it
    sends carries exactly one attachment. *)
Theorem HandleRequest_at_most_one_send (ctx : Context)
        (event : CloudWatchEvent time_Time) (w : World) :
  List.length (calls_during (HandleRequest ctx event) w) <= 1
  /\ Forall (fun c => List.length (Attachments (fst c)) = 1)
            (calls_during (HandleRequest ctx event) w).
Proof.
  destruct (String.eqb_spec (Source event) "aws.emr") as [Hsrc|Hsrc].
  - destruct (json.Unmarshal (Detail event) EMREventDetail_zero)
      as [d [err|]] eqn:Hdec.
    + rewrite unchanged_calls_during
        by (rewrite (HandleRequest_undecoded ctx event w d err Hsrc Hdec);
            reflexivity).
      split; [cbn; lia|constructor].
    + destruct (HandleRequest_sends_built ctx event w d Hsrc Hdec)
        as (answer & ->).
      split; [cbn; lia|]. constructor; [reflexivity|constructor].
  - rewrite unchanged_calls_during
      by (rewrite (HandleRequest_other_source ctx event w Hsrc), dispatch_empty;
          reflexivity).
    split; [cbn; lia|constructor].
Qed.

End HandlerFacts.

Section ParserFacts.
Import encoding_json.

Lemma rest_lt_le {A : Type} (k : option (A * list byte)) (s s' : list byte) :
  rest_lt k s -> List.length s <= List.length s' -> rest_lt k s'.
Proof. destruct k as [[a r]|]; cbn; lia. Qed.

Lemma rest_le_lt {A : Type} (k : option (A * list byte)) (s s' : list byte) :
  rest_le k s -> List.length s < List.length s' -> rest_lt k s'.
Proof. destruct k as [[a r]|]; cbn; lia. Qed.

Lemma rest_le_le {A : Type} (k : option (A * list byte)) (s s' : list byte) :
  rest_le k s -> List.length s <= List.length s' -> rest_le k s'.
Proof. destruct k as [[a r]|]; cbn; lia. Qed.

Lemma rest_lt_prepend p k (s : list byte) : rest_lt k s -> rest_lt (prepend p k) s.
Proof. destruct k as [[a r]|]; cbn; auto. Qed.

Lemma rest_le_prepend p k (s : list byte) : rest_le k s -> rest_le (prepend p k) s.
Proof. destruct k as [[a r]|]; cbn; auto. Qed.

Lemma skip_ws_length (s : list byte) : List.length (skip_ws s) <= List.length s.
Proof.
  induction s as [|c r IH]; [apply Nat.le_refl|].
  cbn [skip_ws]. destruct (isSpace c); cbn [List.length]; lia.
Qed.

Lemma span_digits_length (s : list byte) :
  List.length (snd (span_digits s)) <= List.length s.
Proof.
  induction s as [|c r IH]; [apply Nat.le_refl|].
  cbn [span_digits]. destruct (isDigit c); [|apply Nat.le_refl].
  destruct (span_digits r) as [ds r']. cbn [snd List.length] in *. lia.
Qed.

Lemma digits_then_length k (s : list byte) :
  (forall r, rest_le (k r) r) -> rest_le (digits_then k s) s.
Proof.
  intros Hk. unfold digits_then.
  pose proof (span_digits_length s) as Hs.
  destruct (span_digits s) as [[|d ds] r]; [exact I|].
  apply rest_le_prepend, (rest_le_le _ r); [apply Hk|exact Hs].
Qed.

Lemma scan_exp_length (s : list byte) : rest_le (scan_exp s) s.
Proof.
  assert (Hd : forall s', rest_le (digits_then (fun r2 => Some ([], r2)) s') s')
    by (intros s'; apply digits_then_length; intros r; apply Nat.le_refl).
  destruct s as [|e r]; [apply Nat.le_refl|]. cbn [scan_exp].
  destruct (Byte.eqb e "e" || Byte.eqb e "E"); [|apply Nat.le_refl].
  destruct r as [|c r1]; [exact I|].
  destruct (Byte.eqb c "+" || Byte.eqb c "-"); apply rest_le_prepend.
  - apply (rest_le_le _ r1); [apply Hd|cbn [List.length]; lia].
  - apply (rest_le_le _ (c :: r1)); [apply Hd|cbn [List.length]; lia].
Qed.

Lemma scan_frac_length (s : list byte) : rest_le (scan_frac s) s.
Proof.
  destruct s as [|c r]; [apply Nat.le_refl|]. cbn [scan_frac].
  destruct (Byte.eqb c "."); [|apply scan_exp_length].
  apply rest_le_prepend, (rest_le_le _ r);
    [apply digits_then_length, scan_exp_length|cbn [List.length]; lia].
Qed.

Lemma scan_int_length (s : list byte) : rest_lt (scan_int s) s.
Proof.
  destruct s as [|c r]; [exact I|]. cbn [scan_int].
  destruct (Byte.eqb c "0").
  - apply rest_lt_prepend, (rest_le_lt _ r);
      [apply scan_frac_length|cbn [List.length]; lia].
  - destruct (between 49 57 c); [|exact I].
    pose proof (span_digits_length r) as Hs.
    destruct (span_digits r) as [ds r1]. cbn [snd] in Hs.
    apply rest_lt_prepend, (rest_le_lt _ r1);
      [apply scan_frac_length|cbn [List.length]; lia].
Qed.

Lemma scan_number_length (s : list byte) : rest_lt (scan_number s) s.
Proof.
  destruct s as [|c r]; [exact I|]. cbn [scan_number].
  destruct (Byte.eqb c "-"); [|apply scan_int_length].
  apply rest_lt_prepend, (rest_lt_le _ r);
    [apply scan_int_length|cbn [List.length]; lia].
Qed.

Lemma literal_length {A : Type} (word : list byte) (v : A) :
  forall s, rest_le (literal word v s) s.
Proof.
  induction word as [|w word IH]; intros s; [apply Nat.le_refl|].
  destruct s as [|c r]; [exact I|]. cbn [literal].
  destruct (Byte.eqb c w); [|exact I].
  apply (rest_le_le _ r); [apply IH|cbn [List.length]; lia].
Qed.

Lemma scan_string_length :
  forall n s, List.length s <= n -> rest_lt (scan_string s) s.
Proof.
  induction n as [|n IH]; intros s Hn.
  - destruct s; [exact I|cbn in Hn; lia].
  - destruct s as [|c r]; [exact I|].
    cbn [List.length] in Hn.
    assert (Hrec : forall p s',
               List.length s' <= List.length r ->
               rest_lt (prepend p (scan_string s')) (c :: r)).
    { intros p s' Hs'. apply rest_lt_prepend, (rest_lt_le _ s').
      - apply IH. lia.
      - cbn [List.length]. lia. }
    clear IH Hn. cbn [scan_string].
    repeat match goal with
           | |- rest_lt None _ => exact I
           | |- rest_lt (Some _) _ => exact (le_n _)
           | |- rest_lt (prepend _ (scan_string _)) _ =>
               apply Hrec; cbn [List.length]; lia
           | |- rest_lt (if ?b then _ else _) _ => destruct b
           | |- rest_lt (match ?x with _ => _ end) _ => destruct x
           end.
Qed.

Lemma closes_length (c : byte) (s r : list byte) :
  closes c s = Some r -> List.length r < List.length s.
Proof.
  unfold closes. pose proof (skip_ws_length s) as Hs.
  destruct (skip_ws s) as [|c' r']; [discriminate|].
  destruct (Byte.eqb c' c); [|discriminate].
  intros [= <-]. cbn [List.length] in Hs. lia.
Qed.

Section ContainerFacts.
Variable value : list byte -> option (json * list byte).
Hypothesis value_length : forall s, rest_lt (value s) s.

Lemma parse_member_length (s : list byte) : rest_lt (parse_member value s) s.
Proof.
  unfold parse_member. pose proof (skip_ws_length s) as Hs.
  destruct (skip_ws s) as [|q r]; [exact I|].
  destruct (Byte.eqb q quote); [|exact I].
  pose proof (scan_string_length _ r (Nat.le_refl _)) as Hk.
  destruct (scan_string r) as [[k r1]|]; [|exact I].
  pose proof (skip_ws_length r1) as H1.
  destruct (skip_ws r1) as [|c r2]; [exact I|].
  destruct (Byte.eqb c ":"); [|exact I].
  pose proof (value_length r2) as Hv.
  destruct (value r2) as [[v r3]|]; [|exact I].
  cbn [rest_lt List.length] in *. lia.
Qed.

Lemma parse_elements_length (fuel : nat) :
  forall s, rest_lt (parse_elements value fuel s) s.
Proof.
  induction fuel as [|fuel IH]; intros s; [exact I|]. cbn [parse_elements].
  pose proof (value_length s) as Hv.
  destruct (value s) as [[v r]|]; [|exact I].
  pose proof (skip_ws_length r) as Hr.
  destruct (skip_ws r) as [|c r1]; [exact I|].
  destruct (Byte.eqb c ",").
  - pose proof (IH r1) as H1.
    destruct (parse_elements value fuel r1) as [[vs r2]|]; [|exact I].
    cbn [rest_lt List.length] in *. lia.
  - destruct (Byte.eqb c "]"); [|exact I].
    cbn [rest_lt List.length] in *. lia.
Qed.

Lemma parse_members_length (fuel : nat) :
  forall s, rest_lt (parse_members value fuel s) s.
Proof.
  induction fuel as [|fuel IH]; intros s; [exact I|]. cbn [parse_members].
  pose proof (parse_member_length s) as Hv.
  destruct (parse_member value s) as [[m r]|]; [|exact I].
  pose proof (skip_ws_length r) as Hr.
  destruct (skip_ws r) as [|c r1]; [exact I|].
  destruct (Byte.eqb c ",").
  - pose proof (IH r1) as H1.
    destruct (parse_members value fuel r1) as [[vs r2]|]; [|exact I].
    cbn [rest_lt List.length] in *. lia.
  - destruct (Byte.eqb c "}"); [|exact I].
    cbn [rest_lt List.length] in *. lia.
Qed.

(** The length of the input is fuel enough: more fuel changes nothing. *)
Lemma parse_elements_fuel (fuel : nat) :
  forall fuel' s,
    List.length s <= fuel -> List.length s <= fuel' ->
    parse_elements value fuel s = parse_elements value fuel' s.
Proof.
  induction fuel as [|fuel IH]; intros fuel' s Hf Hf'.
  - destruct s; [|cbn in Hf; lia].
    pose proof (value_length []) as Hv.
    destruct fuel'; [reflexivity|]. cbn [parse_elements].
    destruct (value []) as [[v r]|]; [cbn in Hv; lia|reflexivity].
  - pose proof (value_length s) as Hv.
    destruct fuel' as [|fuel'].
    + destruct s; [|cbn in Hf'; lia]. cbn [parse_elements].
      destruct (value []) as [[v r]|]; [cbn in Hv; lia|reflexivity].
    + cbn [parse_elements].
      destruct (value s) as [[v r]|]; [|reflexivity].
      pose proof (skip_ws_length r) as Hr.
      destruct (skip_ws r) as [|c r1]; [reflexivity|].
      cbn [rest_lt List.length] in *.
      rewrite (IH fuel' r1) by lia. reflexivity.
Qed.

Lemma parse_members_fuel (fuel : nat) :
  forall fuel' s,
    List.length s <= fuel -> List.length s <= fuel' ->
    parse_members value fuel s = parse_members value fuel' s.
Proof.
  induction fuel as [|fuel IH]; intros fuel' s Hf Hf'.
  - destruct s; [|cbn in Hf; lia].
    destruct fuel'; reflexivity.
  - pose proof (parse_member_length s) as Hv.
    destruct fuel' as [|fuel'].
    + destruct s; [reflexivity|cbn in Hf'; lia].
    + cbn [parse_members].
      destruct (parse_member value s) as [[m r]|]; [|reflexivity].
      pose proof (skip_ws_length r) as Hr.
      destruct (skip_ws r) as [|c r1]; [reflexivity|].
      cbn [rest_lt List.length] in *.
      rewrite (IH fuel' r1) by lia. reflexivity.
Qed.

End ContainerFacts.

Lemma scalar_length (c : byte) (r : list byte) :
  rest_lt
    (if Byte.eqb c "t" then literal (list_byte_of_string "rue") (JBool true) r
     else if Byte.eqb c "f" then literal (list_byte_of_string "alse") (JBool false) r
     else if Byte.eqb c "n" then literal (list_byte_of_string "ull") JNull r
     else match scan_number (c :: r) with
          | Some (lit, r1) => Some (JNumber lit, r1)
          | None => None
          end) (c :: r).
Proof.
  repeat match goal with
         | |- rest_lt (if ?b then _ else _) _ => destruct b
         | |- rest_lt (literal _ _ _) _ =>
             apply (rest_le_lt _ r); [apply literal_length|cbn [List.length]; lia]
         end.
  pose proof (scan_number_length (c :: r)) as Hn.
  destruct (scan_number (c :: r)) as [[lit r1]|]; [exact Hn|exact I].
Qed.

Lemma parse_value_length (depth : nat) :
  forall s, rest_lt (parse_value depth s) s.
Proof.
  induction depth as [|d IH]; intros s; cbn [parse_value];
    pose proof (skip_ws_length s) as Hs;
    (destruct (skip_ws s) as [|c r]; [exact I|]);
    apply (fun H => rest_lt_le _ (c :: r) s H Hs); clear Hs;
    (destruct (Byte.eqb c quote);
     [pose proof (scan_string_length _ r (Nat.le_refl _)) as Hk;
      destruct (scan_string r) as [[k r1]|];
      [cbn [rest_lt List.length] in *; lia|exact I]|]).
  - destruct (Byte.eqb c "{"); [exact I|].
    destruct (Byte.eqb c "["); [exact I|].
    apply scalar_length.
  - destruct (Byte.eqb c "{"); [|destruct (Byte.eqb c "[")].
    + destruct (closes "}" r) as [r1|] eqn:E.
      * apply closes_length in E. cbn [rest_lt List.length]. lia.
      * pose proof (parse_members_length _ IH (List.length r) r) as Hm.
        destruct (parse_members _ _ r) as [[ms r1]|]; [|exact I].
        cbn [rest_lt List.length] in *. lia.
    + destruct (closes "]" r) as [r1|] eqn:E.
      * apply closes_length in E. cbn [rest_lt List.length]. lia.
      * pose proof (parse_elements_length _ IH (List.length r) r) as Hm.
        destruct (parse_elements _ _ r) as [[ms r1]|]; [|exact I].
        cbn [rest_lt List.length] in *. lia.
    + apply scalar_length.
Qed.

(** The loops of [parse_value] over the members of an object and the
    elements of an array never stop for want of fuel: with more fuel than the
    length of the input they read the same. *)
Lemma parse_value_fuel (d fuel : nat) (r : list byte) :
  List.length r <= fuel ->
  parse_members (parse_value d) fuel r
  = parse_members (parse_value d) (List.length r) r
  /\ parse_elements (parse_value d) fuel r
     = parse_elements (parse_value d) (List.length r) r.
Proof.
  intros Hf. split.
  - apply parse_members_fuel; [apply parse_value_length|exact Hf|apply Nat.le_refl].
  - apply parse_elements_fuel; [apply parse_value_length|exact Hf|apply Nat.le_refl].
Qed.

End ParserFacts.

Section DecoderFacts.
Import encoding_json.

Lemma bytes_eqb_eq (a b : list byte) : bytes_eqb a b = true <-> a = b.
Proof.
  unfold bytes_eqb. destruct (list_eq_dec Byte.byte_eq_dec a b); split;
    intros; congruence.
Qed.

Lemma bytes_eqb_sym (a b : list byte) : bytes_eqb a b = bytes_eqb b a.
Proof.
  unfold bytes_eqb.
  destruct (list_eq_dec Byte.byte_eq_dec a b), (list_eq_dec Byte.byte_eq_dec b a);
    congruence.
Qed.

(** The field a key selects is the one it names up to case. *)
Lemma find_field_namesb (key : list byte) :
  find_field EMREventDetail_tags key =
  if namesb key F_Severity then Some F_Severity
  else if namesb key F_State then Some F_State
  else if namesb key F_Message then Some F_Message
  else None.
Proof.
  unfold find_field. cbn [EMREventDetail_tags find fst snd].
  destruct (bytes_eqb (list_byte_of_string "severity") key) eqn:E1;
    [apply bytes_eqb_eq in E1; subst key; reflexivity|].
  destruct (bytes_eqb (list_byte_of_string "state") key) eqn:E2;
    [apply bytes_eqb_eq in E2; subst key; reflexivity|].
  destruct (bytes_eqb (list_byte_of_string "message") key) eqn:E3;
    [apply bytes_eqb_eq in E3; subst key; reflexivity|].
  unfold namesb. cbn [json.tag_of].
  rewrite !(bytes_eqb_sym (foldName key)).
  repeat match goal with
         | |- context [bytes_eqb ?a (foldName key)] =>
             destruct (bytes_eqb a (foldName key))
         end; reflexivity.
Qed.

Lemma namesb_functional (key : list byte) (f f' : EMREventDetail_field) :
  namesb key f = true -> namesb key f' = true -> f = f'.
Proof.
  unfold namesb. intros H H'.
  apply bytes_eqb_eq in H, H'. rewrite H in H'.
  destruct f, f'; try reflexivity; vm_compute in H'; discriminate.
Qed.

Lemma find_field_Some (key : list byte) (f : EMREventDetail_field) :
  find_field EMREventDetail_tags key = Some f <-> namesb key f = true.
Proof.
  rewrite find_field_namesb. split.
  - destruct (namesb key F_Severity) eqn:E1; [intros [= <-]; exact E1|].
    destruct (namesb key F_State) eqn:E2; [intros [= <-]; exact E2|].
    destruct (namesb key F_Message) eqn:E3; [intros [= <-]; exact E3|].
    discriminate.
  - intros H.
    destruct (namesb key F_Severity) eqn:E1;
      [f_equal; apply (namesb_functional key); assumption|].
    destruct (namesb key F_State) eqn:E2;
      [f_equal; apply (namesb_functional key); assumption|].
    destruct (namesb key F_Message) eqn:E3;
      [f_equal; apply (namesb_functional key); assumption|].
    destruct f; congruence.
Qed.

Lemma find_field_None (key : list byte) :
  find_field EMREventDetail_tags key = None <-> forall f, namesb key f = false.
Proof.
  split.
  - intros H f. destruct (namesb key f) eqn:E; [|reflexivity].
    apply find_field_Some in E. congruence.
  - intros H. rewrite find_field_namesb, !H. reflexivity.
Qed.

Lemma get_set_same (f : EMREventDetail_field) (s : string) (d : EMREventDetail) :
  get_field f (set_field f s d) = s.
Proof. destruct f; reflexivity. Qed.

Lemma get_set_other (f f' : EMREventDetail_field) (s : string) (d : EMREventDetail) :
  f <> f' -> get_field f (set_field f' s d) = get_field f d.
Proof. destruct f, f'; intros H; try reflexivity; contradiction. Qed.

Lemma set_get (f : EMREventDetail_field) (d : EMREventDetail) :
  set_field f (get_field f d) d = d.
Proof. destruct f, d; reflexivity. Qed.

(** A member whose key names no field changes nothing. *)
Lemma decode_member_unknown acc (key : list byte) (v : json) :
  (forall f, namesb key f = false) -> json.decode_member acc (key, v) = acc.
Proof.
  intros H. unfold json.decode_member. cbn [fst snd].
  rewrite (proj2 (find_field_None key) H). reflexivity.
Qed.

(** A member whose key names [f] and whose value is a string stores it. *)
Lemma decode_member_string acc (key s : list byte) (f : EMREventDetail_field) :
  namesb key f = true ->
  json.decode_member acc (key, JString s)
  = (set_field f (string_of_list_byte s) (fst acc), snd acc).
Proof.
  intros H. unfold json.decode_member. cbn [fst snd].
  rewrite (proj2 (find_field_Some key f) H). cbn.
  destruct (snd acc); reflexivity.
Qed.

(** A member leaves alone the fields its key does not name, and every field
    when its value is not a string. *)
Lemma decode_member_keeps acc (key : list byte) (v : json)
      (f : EMREventDetail_field) :
  (forall s, v = JString s -> namesb key f = false) ->
  get_field f (fst (json.decode_member acc (key, v))) = get_field f (fst acc).
Proof.
  intros H. unfold json.decode_member. cbn [fst snd].
  destruct (find_field EMREventDetail_tags key) as [f'|] eqn:E; [|reflexivity].
  apply find_field_Some in E.
  destruct v; cbn; try (rewrite set_get; reflexivity).
  apply get_set_other. intros ->.
  specialize (H _ eq_refl). congruence.
Qed.

Lemma decode_member_no_error acc (key : list byte) (v : json) :
  (forall f, namesb key f = true -> storable v = true) ->
  snd acc = None -> snd (json.decode_member acc (key, v)) = None.
Proof.
  intros H Hacc. unfold json.decode_member. cbn [fst snd].
  destruct (find_field EMREventDetail_tags key) as [f'|] eqn:E; [|exact Hacc].
  apply find_field_Some in E. specialize (H _ E).
  destruct v; try discriminate; cbn; rewrite Hacc; reflexivity.
Qed.

Lemma fold_decode_keeps (f : EMREventDetail_field) ms :
  forall acc,
    (forall k s, In (k, JString s) ms -> namesb k f = false) ->
    get_field f (fst (fold_left json.decode_member ms acc)) = get_field f (fst acc).
Proof.
  induction ms as [|[k v] ms IH]; intros acc H; [reflexivity|].
  cbn [fold_left]. rewrite IH by (intros; eapply H; right; eassumption).
  apply decode_member_keeps. intros s ->. apply (H k s). left. reflexivity.
Qed.

Lemma fold_decode_no_error ms :
  forall acc,
    (forall k v f, In (k, v) ms -> namesb k f = true -> storable v = true) ->
    snd acc = None -> snd (fold_left json.decode_member ms acc) = None.
Proof.
  induction ms as [|[k v] ms IH]; intros acc H Hacc; [exact Hacc|].
  cbn [fold_left]. apply IH; [intros; eapply H; [right|]; eassumption|].
  apply decode_member_no_error; [|exact Hacc].
  intros f. apply (H k v f). left. reflexivity.
Qed.

(** C7 (as the code has it): a detail that is a JSON object in which every
    member whose key names severity, state or message, up to the case of the
    letters, holds a string or [null], decodes without an error; a field
    that no member with a string names is empty; a field that members with
    strings name has the string of the last of them; and a member whose key
    names no field is ignored, whatever its value. *)
Theorem Unmarshal_object_fields (data : list byte)
        (ms : list (list byte * json)) :
  parse data = Some (JObject ms) ->
  (forall k v f, In (k, v) ms -> namesb k f = true -> storable v = true) ->
  exists d,
    json.Unmarshal data EMREventDetail_zero = (d, None)
    /\ (forall f,
          (forall k s, In (k, JString s) ms -> namesb k f = false) ->
          get_field f d = "")
    /\ (forall f ms1 k s ms2,
          ms = ms1 ++ (k, JString s) :: ms2 ->
          namesb k f = true ->
          (forall k' s', In (k', JString s') ms2 -> namesb k' f = false) ->
          get_field f d = string_of_list_byte s)
    /\ (forall ms1 k v ms2,
          ms = ms1 ++ (k, v) :: ms2 ->
          (forall f, namesb k f = false) ->
          json.decode_object (ms1 ++ ms2) EMREventDetail_zero = (d, None)).
Proof.
  intros Hparse Htyped.
  exists (fst (json.decode_object ms EMREventDetail_zero)).
  assert (Herr : snd (json.decode_object ms EMREventDetail_zero) = None)
    by (apply fold_decode_no_error; [exact Htyped|reflexivity]).
  split; [|split; [|split]].
  - unfold json.Unmarshal. rewrite Hparse.
    rewrite <- Herr. apply surjective_pairing.
  - intros f Hf. unfold json.decode_object.
    rewrite fold_decode_keeps by exact Hf. destruct f; reflexivity.
  - intros f ms1 k s ms2 -> Hk Hlast. unfold json.decode_object.
    rewrite fold_left_app. cbn [fold_left].
    rewrite fold_decode_keeps by exact Hlast.
    rewrite (decode_member_string _ k s f Hk). apply get_set_same.
  - intros ms1 k v ms2 -> Hk. unfold json.decode_object in *.
    rewrite !fold_left_app in *. cbn [fold_left] in Herr |- *.
    rewrite (decode_member_unknown _ k v Hk) in Herr |- *.
    destruct (fold_left json.decode_member ms2 _) as [d e].
    cbn [fst snd] in *. subst e. reflexivity.
Qed.

End DecoderFacts.

(* ===================================================================== *)
(** ** Further properties of the handler                                 *)
(* ===================================================================== *)

Section MoreHandlerFacts.
Import events slack.
Context {C : Collaborators}.

(** The three ways an invocation ends: another source; a detail that does
    not decode; a detail that decodes, and then one call of [Send]. *)
Lemma HandleRequest_cases (ctx : Context) (event : CloudWatchEvent time_Time)
      (w : World) :
  (Source event <> "aws.emr"
   /\ HandleRequest ctx event w =
      (None, {| clock := clock w; environ := environ w; client := client w;
                calls := calls w;
                logged := logged w ++ [Warning_Println "No Slack Sent"] |}))
  \/ (exists d err,
        Source event = "aws.emr"
        /\ json.Unmarshal (Detail event) EMREventDetail_zero = (d, Some err)
        /\ HandleRequest ctx event w =
           (None, {| clock := clock w; environ := environ w;
                     client := client w; calls := calls w;
                     logged := logged w ++ [Error_Println (JsonError err)] |}))
  \/ (exists d answer,
        Source event = "aws.emr"
        /\ json.Unmarshal (Detail event) EMREventDetail_zero = (d, None)
        /\ fst (HandleRequest ctx event w) = None
        /\ extends w (snd (HandleRequest ctx event w))
                   [(payload_of [fst (build_attachment event d w)], answer)]).
Proof.
  destruct (String.eqb_spec (Source event) "aws.emr") as [Hsrc|Hsrc].
  - destruct (json.Unmarshal (Detail event) EMREventDetail_zero)
      as [d [err|]] eqn:Hdec.
    + right. left. exists d, err. repeat split; try assumption.
      apply (HandleRequest_undecoded ctx event w d err Hsrc Hdec).
    + right. right.
      destruct (HandleRequest_decoded ctx event w d Hsrc Hdec)
        as (answer & Hnil & Hext).
      exists d, answer. repeat split; try assumption; apply Hext.
  - left. split; [exact Hsrc|].
    rewrite (HandleRequest_other_source ctx event w Hsrc). apply dispatch_empty.
Qed.

(** X1: an invocation leaves the clock and the environment as they are and
    only adds to the record of the calls and to the log: what was there
    stays, in place. *)
Theorem HandleRequest_appends_only (ctx : Context)
        (event : CloudWatchEvent time_Time) (w : World) :
  let w' := snd (HandleRequest ctx event w) in
  clock w' = clock w
  /\ environ w' = environ w
  /\ calls w' = calls w ++ calls_during (HandleRequest ctx event) w
  /\ logged w' = logged w ++ logged_during (HandleRequest ctx event) w.
Proof.
  cbv zeta. unfold calls_during, logged_during.
  destruct (HandleRequest_cases ctx event w)
    as [[_ Hrun]|[(d & err & _ & _ & Hrun)|(d & answer & _ & _ & _ & Hext)]].
  - rewrite Hrun. cbn [snd clock environ calls logged].
    rewrite skipn_all, skipn_length_app, app_nil_r. auto.
  - rewrite Hrun. cbn [snd clock environ calls logged].
    rewrite skipn_all, skipn_length_app, app_nil_r. auto.
  - destruct Hext as (Hc & He & Hcalls & Hlog).
    rewrite Hcalls, Hlog, !skipn_length_app. auto.
Qed.

(** X2: every invocation writes exactly one log line. *)
Theorem HandleRequest_logs_one_line (ctx : Context)
        (event : CloudWatchEvent time_Time) (w : World) :
  List.length (logged_during (HandleRequest ctx event) w) = 1.
Proof.
  destruct (HandleRequest_cases ctx event w)
    as [[_ Hrun]|[(d & err & _ & _ & Hrun)|(d & answer & _ & _ & _ & Hext)]].
  - unfold logged_during. rewrite Hrun. cbn [snd logged].
    rewrite skipn_length_app. reflexivity.
  - unfold logged_during. rewrite Hrun. cbn [snd logged].
    rewrite skipn_length_app. reflexivity.
  - rewrite (extends_logged_during _ _ _ Hext). reflexivity.
Qed.

(** X3: whatever error [json.Unmarshal] returns for the detail of a
    matching event, a syntax error or a type error, the handler logs this
    very error, sends nothing and returns [nil]. *)
Theorem HandleRequest_drops_undecoded (ctx : Context)
        (event : CloudWatchEvent time_Time) (w : World) (err : encoding_json.json_error) :
  Source event = "aws.emr" ->
  snd (json.Unmarshal (Detail event) EMREventDetail_zero) = Some err ->
  fst (HandleRequest ctx event w) = None
  /\ calls_during (HandleRequest ctx event) w = []
  /\ logged_during (HandleRequest ctx event) w = [Error_Println (JsonError err)]
  /\ client (snd (HandleRequest ctx event w)) = client w.
Proof.
  intros Hsrc Herr.
  destruct (json.Unmarshal (Detail event) EMREventDetail_zero) as [d e] eqn:Hdec.
  cbn [snd] in Herr. subst e.
  pose proof (HandleRequest_undecoded ctx event w d err Hsrc Hdec) as Hrun.
  rewrite Hrun. cbn [fst snd client]. repeat split.
  - apply unchanged_calls_during. rewrite Hrun. reflexivity.
  - unfold logged_during. rewrite Hrun. apply skipn_length_app.
Qed.

(** X4: the handler calls [Send] exactly when the source is aws.emr and the
    detail decodes without an error, and then it calls it once. *)
Theorem HandleRequest_sends_iff (ctx : Context)
        (event : CloudWatchEvent time_Time) (w : World) :
  (calls_during (HandleRequest ctx event) w <> []
   <-> Source event = "aws.emr"
       /\ snd (json.Unmarshal (Detail event) EMREventDetail_zero) = None)
  /\ (calls_during (HandleRequest ctx event) w = []
      \/ List.length (calls_during (HandleRequest ctx event) w) = 1).
Proof.
  destruct (HandleRequest_cases ctx event w)
    as [[Hsrc Hrun]|[(d & err & Hsrc & Hdec & Hrun)
                    |(d & answer & Hsrc & Hdec & _ & Hext)]].
  - assert (E : calls_during (HandleRequest ctx event) w = [])
      by (apply unchanged_calls_during; rewrite Hrun; reflexivity).
    rewrite E. split; [|left; reflexivity].
    split; [intros N; contradiction|intros [N _]; contradiction].
  - assert (E : calls_during (HandleRequest ctx event) w = [])
      by (apply unchanged_calls_during; rewrite Hrun; reflexivity).
    rewrite E, Hdec. split; [|left; reflexivity].
    split; [intros N; contradiction|intros [_ N]; discriminate].
  - rewrite (extends_calls_during _ _ _ Hext), Hdec.
    split; [|right; reflexivity].
    split; [intros _; split; [exact Hsrc|reflexivity]|intros _; discriminate].
Qed.

(** X5: the warning that nothing was sent is logged exactly when the source
    is not aws.emr; a detail that does not decode is logged as an error and
    not as this warning. *)
Theorem HandleRequest_warns_iff_other_source (ctx : Context)
        (event : CloudWatchEvent time_Time) (w : World) :
  In (Warning_Println "No Slack Sent")
     (logged_during (HandleRequest ctx event) w)
  <-> Source event <> "aws.emr".
Proof.
  destruct (HandleRequest_cases ctx event w)
    as [[Hsrc Hrun]|[(d & err & Hsrc & Hdec & Hrun)
                    |(d & answer & Hsrc & Hdec & _ & Hext)]].
  - split; [intros _; exact Hsrc|intros _].
    unfold logged_during. rewrite Hrun. cbn [snd logged].
    rewrite skipn_length_app. left. reflexivity.
  - split; [|intros N; contradiction].
    unfold logged_during. rewrite Hrun. cbn [snd logged].
    rewrite skipn_length_app. intros [N|[]]. discriminate.
  - split; [|intros N; contradiction].
    rewrite (extends_logged_during _ _ _ Hext). cbn [map snd].
    unfold log_of_answer. intros [N|[]].
    destruct (snd answer); discriminate.
Qed.

(** X6: the payload sent for a matching event that decodes goes to the
    channel [slackMonitorChannel]; its attachment has the value of the
    environment variable AWS_LAMBDA_FUNCTION_NAME as its footer and the
    fixed address of the icon as its footer icon. *)
Theorem HandleRequest_footer_and_channel (ctx : Context)
        (event : CloudWatchEvent time_Time) (w : World) (d : EMREventDetail) :
  Source event = "aws.emr" ->
  json.Unmarshal (Detail event) EMREventDetail_zero = (d, None) ->
  exists a answer,
    calls_during (HandleRequest ctx event) w
    = [({| Channel := slackMonitorChannel; Attachments := [a] |}, answer)]
    /\ Footer a = environ w "AWS_LAMBDA_FUNCTION_NAME"
    /\ FooterIcon a = "https://d1d05r7k0qlw4w.cloudfront.net/dist-cbe91c5a8477701757ff6752aae4c6f892018972/img/favicon.ico".
Proof.
  intros Hsrc Hdec.
  destruct (HandleRequest_sends_built ctx event w d Hsrc Hdec) as (answer & Hc).
  exists (fst (build_attachment event d w)), answer.
  split; [exact Hc|]. split; reflexivity.
Qed.

(** X7: the one call of [Send] is made on the client as the invocation
    found it; its answer decides the log line, the response on [Info] or the
    error on [Error], and the client is left as this call left it. *)
Theorem HandleRequest_send_and_log (ctx : Context)
        (event : CloudWatchEvent time_Time) (w : World) (d : EMREventDetail) :
  Source event = "aws.emr" ->
  json.Unmarshal (Detail event) EMREventDetail_zero = (d, None) ->
  let payload := payload_of [fst (build_attachment event d w)] in
  let answer := snd (Client_Send (client w) payload) in
  calls_during (HandleRequest ctx event) w = [(payload, answer)]
  /\ logged_during (HandleRequest ctx event) w
     = [match snd answer with
        | Some err => Error_Println (SendError err)
        | None => Info_Println (fst answer)
        end]
  /\ client (snd (HandleRequest ctx event w))
     = fst (Client_Send (client w) payload).
Proof.
  intros Hsrc Hdec payload answer. subst payload answer.
  unfold calls_during, logged_during, HandleRequest.
  rewrite Hsrc, Hdec. cbn [String.eqb Ascii.eqb Bool.eqb app].
  unfold bind at 1 2 3.
  destruct (build_attachment event d w) as [a w1] eqn:Hb.
  pose proof (build_attachment_pure event d w) as Hw.
  rewrite Hb in Hw. cbn [snd fst] in *. subst w1.
  unfold dispatch, bind. cbn [List.length Nat.eqb negb].
  rewrite send_loop_step. cbn [List.length Nat.ltb Nat.leb].
  unfold bind. rewrite send_chunk_payload. unfold bind, Send.
  change (slice [a] 0 (Nat.min (0 + slackAttachmentsChunkSize) (List.length [a])))
    with [a].
  destruct (Client_Send (client w) (payload_of [a])) as [c answer].
  unfold Println. rewrite send_loop_step.
  change ((0 + slackAttachmentsChunkSize <? List.length [a])%nat) with false.
  cbn [ret snd fst calls logged client].
  rewrite !skipn_length_app. cbn [snd fst]. repeat split.
Qed.

(** X8: a line goes to the standard error stream exactly when the detail
    of a matching event does not decode or the call of [Send] fails; all
    other lines go to the standard output. *)
Theorem HandleRequest_stderr_iff (ctx : Context)
        (event : CloudWatchEvent time_Time) (w : World) :
  Exists (fun l => Logger_out (logger_of l) = os_Stderr)
         (logged_during (HandleRequest ctx event) w)
  <-> Source event = "aws.emr"
      /\ (snd (json.Unmarshal (Detail event) EMREventDetail_zero) <> None
          \/ exists err,
               In err (map (fun call => snd (snd call))
                           (calls_during (HandleRequest ctx event) w))
               /\ err <> None).
Proof.
  destruct (HandleRequest_cases ctx event w)
    as [[Hsrc Hrun]|[(d & err & Hsrc & Hdec & Hrun)
                    |(d & answer & Hsrc & Hdec & _ & Hext)]].
  - split; [|intros [N _]; contradiction].
    unfold logged_during. rewrite Hrun. cbn [snd logged].
    rewrite skipn_length_app. intros H.
    apply Exists_cons in H as [H|H]; [discriminate|inversion H].
  - split.
    + intros _. split; [exact Hsrc|]. left. rewrite Hdec. discriminate.
    + intros _. unfold logged_during. rewrite Hrun. cbn [snd logged].
      rewrite skipn_length_app. left. reflexivity.
  - rewrite (extends_logged_during _ _ _ Hext),
      (extends_calls_during _ _ _ Hext), Hdec.
    cbn [map snd fst]. unfold log_of_answer. split.
    + intros H. split; [exact Hsrc|]. right.
      apply Exists_cons in H as [H|H]; [|inversion H].
      destruct (snd answer) as [e|]; [|discriminate].
      exists (Some e). split; [left; reflexivity|discriminate].
    + intros [_ [N|(e & [<-|[]] & He)]]; [contradiction|].
      left. destruct (snd answer); [reflexivity|contradiction].
Qed.

(** X9: the handler reads neither its context nor the fields [Version],
    [ID] and [Resources] of the event: two events that agree on the other
    fields give the same run. *)
Theorem HandleRequest_reads_six_fields (ctx1 ctx2 : Context)
        (e1 e2 : CloudWatchEvent time_Time) (w : World) :
  same_read_fields e1 e2 ->
  HandleRequest ctx1 e1 w = HandleRequest ctx2 e2 w.
Proof.
  intros (Hs & Hd & Ht & Ha & Hr & Htime).
  unfold HandleRequest, build_attachment.
  rewrite Hs, Hd, Ht, Ha, Hr, Htime. reflexivity.
Qed.

End MoreHandlerFacts.

Section MoreDispatchFacts.
Import events slack.
Context {C : Collaborators}.

#[local] Arguments slackAttachmentsChunkSize : simpl never.

Lemma after_calls_nil (w : World) : after_calls w (client w) [] = w.
Proof. destruct w. unfold after_calls. cbn. rewrite !app_nil_r. reflexivity. Qed.

Lemma after_calls_after_calls (w : World) (c1 c2 : Client) new1 new2 :
  after_calls (after_calls w c1 new1) c2 new2 = after_calls w c2 (new1 ++ new2).
Proof.
  unfold after_calls. cbn. rewrite map_app, !app_assoc. reflexivity.
Qed.

Lemma client_run_app (ps1 ps2 : list Payload) :
  forall c,
    client_run c (ps1 ++ ps2)
    = (fst (client_run c ps1) ++ fst (client_run (snd (client_run c ps1)) ps2),
       snd (client_run (snd (client_run c ps1)) ps2)).
Proof.
  induction ps1 as [|p r IH]; intros c.
  - cbn. destruct (client_run c ps2). reflexivity.
  - cbn [app client_run]. destruct (Client_Send c p) as [c1 answer].
    rewrite IH. destruct (client_run c1 r) as [rest c2]. reflexivity.
Qed.

Lemma client_run_payloads (ps : list Payload) :
  forall c, map fst (fst (client_run c ps)) = ps.
Proof.
  induction ps as [|p r IH]; intros c; [reflexivity|].
  cbn [client_run]. destruct (Client_Send c p) as [c1 answer].
  specialize (IH c1). destruct (client_run c1 r) as [rest c2].
  cbn [fst map] in *. rewrite IH. reflexivity.
Qed.

(** Sending payloads one after the other is running the client on them. *)
Lemma send_each_world (ps : list Payload) :
  forall w,
    send_each ps w
    = (tt, after_calls w (snd (client_run (client w) ps))
                       (fst (client_run (client w) ps))).
Proof.
  induction ps as [|p r IH]; intros w.
  - cbn. rewrite after_calls_nil. reflexivity.
  - cbn [send_each client_run]. unfold bind, Send, Println.
    destruct (Client_Send (client w) p) as [c1 answer].
    rewrite IH. cbn [client].
    destruct (client_run c1 r) as [rest c2]. cbn [fst snd].
    f_equal. unfold after_calls. cbn [clock environ calls logged map snd].
    rewrite <- !app_assoc. reflexivity.
Qed.

Lemma chunks_nil {A : Type} : chunks (@nil A) = [].
Proof. reflexivity. Qed.

Lemma firstn_min_length {A : Type} (n : nat) (l : list A) :
  firstn (Nat.min n (List.length l)) l = firstn n l.
Proof.
  destruct (Nat.le_gt_cases n (List.length l)) as [H|H].
  - rewrite Nat.min_l by exact H. reflexivity.
  - rewrite Nat.min_r by lia. rewrite !firstn_all2 by lia. reflexivity.
Qed.

(** The slices of a list that is not empty: its first 100 elements, then
    the slices of the rest. *)
Lemma chunks_step {A : Type} (l : list A) :
  0 < List.length l ->
  chunks l = firstn slackAttachmentsChunkSize l
             :: chunks (skipn slackAttachmentsChunkSize l).
Proof.
  intros Hl. unfold chunks.
  rewrite (chunk_count_step _ Hl). cbn [seq map].
  rewrite <- seq_shift, map_map, length_skipn. f_equal.
  - unfold chunk_at, slice. cbn [Nat.mul Nat.add skipn].
    rewrite Nat.sub_0_r. apply firstn_min_length.
  - apply map_ext. intros k. unfold chunk_at, slice.
    rewrite length_skipn, skipn_skipn. f_equal; [lia|f_equal; lia].
Qed.

Lemma chunks_app {A : Type} (k : nat) :
  forall l1 l2 : list A,
    List.length l1 = k * slackAttachmentsChunkSize ->
    chunks (l1 ++ l2) = chunks l1 ++ chunks l2.
Proof.
  pose proof chunk_size_pos as Hc.
  induction k as [|k IH]; intros l1 l2 Hk.
  - destruct l1; [reflexivity|cbn in Hk; lia].
  - assert (Hlen : slackAttachmentsChunkSize <= List.length l1) by lia.
    rewrite (chunks_step (l1 ++ l2)) by (rewrite length_app; lia).
    rewrite (chunks_step l1) by lia.
    rewrite firstn_app, skipn_app.
    replace (slackAttachmentsChunkSize - List.length l1) with 0 by lia.
    cbn [firstn skipn]. rewrite app_nil_r.
    rewrite IH by (rewrite length_skipn; lia). reflexivity.
Qed.

(** Lines 123-147 on a list that is not empty, as a whole. *)
Lemma dispatch_run (atts : list Attachment) (w : World) :
  atts <> [] ->
  dispatch atts w
  = (None,
     after_calls w
       (snd (client_run (client w) (map payload_of (chunks atts))))
       (fst (client_run (client w) (map payload_of (chunks atts))))).
Proof.
  intros Hne. unfold dispatch, bind.
  destruct (List.length atts =? 0)%nat eqn:E.
  - apply Nat.eqb_eq, length_zero_iff_nil in E. contradiction.
  - cbn [negb].
    rewrite (send_loop_trace atts (chunk_count (List.length atts)) 0 w)
      by (f_equal; lia).
    rewrite send_each_world. unfold ret, chunks. rewrite map_map. reflexivity.
Qed.

(** X10: the dispatch of a list that is not empty is the run of the client
    on the payloads of the slices, fed one after the other, each call
    starting from the state the one before left: the calls recorded, the
    lines logged and the state of the client at the end are those of this
    run; the clock and the environment are as before. *)
Theorem dispatch_runs_client_in_order (atts : list Attachment) (w : World) :
  atts <> [] ->
  let run := client_run (client w) (map payload_of (chunks atts)) in
  let w' := snd (dispatch atts w) in
  calls w' = calls w ++ fst run
  /\ logged w' = logged w ++ map (fun call => log_of_answer (snd call)) (fst run)
  /\ client w' = snd run
  /\ clock w' = clock w
  /\ environ w' = environ w.
Proof.
  intros Hne. cbv zeta. rewrite (dispatch_run atts w Hne).
  repeat split.
Qed.

(** X11: no payload the dispatch sends is empty, whatever the list, and
    the attachments of all the payloads together are as many as the list
    has. *)
Theorem dispatch_sends_no_empty_payload (atts : list Attachment) (w : World) :
  let sent := map (fun call => Attachments (fst call))
                  (calls_during (dispatch atts) w) in
  Forall (fun s => 1 <= List.length s) sent
  /\ list_sum (map (@List.length Attachment) sent) = List.length atts.
Proof.
  cbv zeta. destruct atts as [|a atts].
  - rewrite unchanged_calls_during by (rewrite dispatch_empty; reflexivity).
    split; [constructor|reflexivity].
  - set (l := a :: atts).
    assert (Hne : l <> []) by discriminate.
    rewrite (dispatch_sent l w Hne).
    pose proof (chunk_count_ceil (List.length l)) as [Hle Hlt].
    split.
    + apply Forall_forall. intros s Hs.
      apply in_map_iff in Hs as (k & <- & Hk). apply in_seq in Hk.
      unfold chunk_at, slice. rewrite length_firstn, length_skipn. nia.
    + rewrite <- length_concat.
      pose proof (concat_slices slackAttachmentsChunkSize l
                    (chunk_count (List.length l)) 0) as Hcat.
      cbn [skipn] in Hcat. f_equal.
      etransitivity; [|apply Hcat; lia]. reflexivity.
Qed.

(** X12: a list of at most 100 attachments that is not empty goes out in
    one payload, whole. *)
Theorem dispatch_small_list_one_payload (atts : list Attachment) (w : World) :
  0 < List.length atts <= 100 ->
  calls_during (dispatch atts) w
  = [(payload_of atts, snd (Client_Send (client w) (payload_of atts)))].
Proof.
  intros [Hpos Hle].
  assert (Hne : atts <> []) by (destruct atts; [cbn in Hpos; lia|discriminate]).
  unfold calls_during. rewrite (dispatch_run atts w Hne).
  cbn [snd after_calls calls]. rewrite skipn_length_app.
  rewrite (chunks_step atts Hpos).
  rewrite (skipn_all2 atts) by (unfold slackAttachmentsChunkSize; lia).
  rewrite chunks_nil, firstn_all2 by (unfold slackAttachmentsChunkSize; lia).
  cbn [map client_run].
  destruct (Client_Send (client w) (payload_of atts)) as [c answer].
  reflexivity.
Qed.

(** X13: after a list whose length is a multiple of 100, a second list is
    dispatched as it would be on its own: the dispatch of the two lists
    joined is the dispatch of the first followed by the dispatch of the
    second. *)
Theorem dispatch_app (k : nat) (l1 l2 : list Attachment) (w : World) :
  List.length l1 = k * 100 -> l1 <> [] -> l2 <> [] ->
  dispatch (l1 ++ l2) w = dispatch l2 (snd (dispatch l1 w)).
Proof.
  intros Hk H1 H2.
  assert (H12 : l1 ++ l2 <> []) by (destruct l1; [contradiction|discriminate]).
  rewrite (dispatch_run (l1 ++ l2) w H12), (dispatch_run l1 w H1).
  cbn [snd]. rewrite (dispatch_run l2 _ H2). cbn [after_calls client].
  rewrite (chunks_app k l1 l2 Hk), map_app, client_run_app. cbn [fst snd].
  f_equal. unfold after_calls. cbn [clock environ calls logged].
  rewrite map_app, !app_assoc. reflexivity.
Qed.

(** X14: line 132 takes its slice within the bounds of the list at every
    round of the loop: the lower index is below the length, the upper index
    is between the lower one and the length, so the slice expression does
    not panic, and the slice has an element. *)
Theorem loop_slice_within_bounds (atts : list Attachment) (i : nat) :
  i < List.length atts ->
  let end_ := i + slackAttachmentsChunkSize in
  let end_ := if (List.length atts <? end_)%nat then List.length atts else end_ in
  i < end_ <= List.length atts
  /\ List.length (slice atts i end_) = end_ - i.
Proof.
  intros Hi. cbv zeta. pose proof chunk_size_pos as Hc.
  destruct (List.length atts <? i + slackAttachmentsChunkSize)%nat eqn:E.
  - split; [lia|]. apply slice_length; lia.
  - apply Nat.ltb_ge in E. split; [lia|]. apply slice_length; lia.
Qed.

End MoreDispatchFacts.

Section MoreDecoderFacts.
Import encoding_json events slack.

Lemma fold_decode_error_kept ms :
  forall acc e, snd acc = Some e ->
    snd (fold_left json.decode_member ms acc) = Some e.
Proof.
  induction ms as [|[k v] ms IH]; intros acc e Hacc; [exact Hacc|].
  cbn [fold_left]. apply IH. unfold json.decode_member. cbn [fst snd].
  destruct (find_field EMREventDetail_tags k) as [f|]; [|exact Hacc].
  destruct (store_string v "EMREventDetail" (json.tag_of f) (get_field f (fst acc)))
    as [s e']. cbn [snd]. rewrite Hacc. reflexivity.
Qed.

Lemma decode_member_error acc (k : list byte) (v : json) (f : EMREventDetail_field) :
  namesb k f = true -> storable v = false -> snd acc = None ->
  snd (json.decode_member acc (k, v))
  = Some (UnmarshalTypeError (kind_of v) "EMREventDetail" (json.tag_of f)).
Proof.
  intros Hk Hv Hacc. unfold json.decode_member. cbn [fst snd].
  rewrite (proj2 (find_field_Some k f) Hk).
  destruct v; try discriminate; cbn; rewrite Hacc; reflexivity.
Qed.

Lemma fold_decode_None_inv ms :
  forall acc,
    snd (fold_left json.decode_member ms acc) = None ->
    snd acc = None
    /\ forall k v f, In (k, v) ms -> namesb k f = true -> storable v = true.
Proof.
  induction ms as [|[k v] ms IH]; intros acc H.
  - split; [exact H|]. intros k v f [].
  - cbn [fold_left] in H. apply IH in H as [Hm Hrest].
    assert (Hacc : snd acc = None).
    { destruct (snd acc) as [e|] eqn:E; [|reflexivity].
      pose proof (fold_decode_error_kept [(k, v)] acc e E) as Hk.
      cbn [fold_left] in Hk. rewrite Hk in Hm. discriminate. }
    split; [exact Hacc|].
    intros k' v' f [[= <- <-]|Hin] Hk; [|apply (Hrest k' v' f Hin Hk)].
    destruct (storable v) eqn:Hv; [reflexivity|].
    rewrite (decode_member_error acc k v f Hk Hv Hacc) in Hm. discriminate.
Qed.

(** X15: [json.Unmarshal] returns no error for a detail exactly when the
    detail is the JSON value [null], or a JSON object in which every member
    whose key names one of the three fields, up to the case of the letters,
    holds a string or [null]. *)
Theorem Unmarshal_succeeds_iff (data : list byte) :
  snd (json.Unmarshal data EMREventDetail_zero) = None
  <-> parse data = Some JNull
      \/ exists ms,
           parse data = Some (JObject ms)
           /\ forall k v f, In (k, v) ms -> namesb k f = true -> storable v = true.
Proof.
  unfold json.Unmarshal. split.
  - destruct (parse data) as [[| | | | |ms]|]; cbn [snd]; try discriminate.
    + intros _. left. reflexivity.
    + intros H. right. exists ms. split; [reflexivity|].
      apply (fold_decode_None_inv ms _ H).
  - intros [->|(ms & -> & Hms)]; [reflexivity|].
    apply fold_decode_no_error; [exact Hms|reflexivity].
Qed.

(** X16: in a detail that is a JSON object, the first member, in the order
    of the text, whose key names a field and whose value is neither a string
    nor [null] decides the error returned: an [UnmarshalTypeError] with the
    kind of this value, the struct EMREventDetail and the JSON name of the
    field. *)
Theorem Unmarshal_reports_first_mismatch (data : list byte)
        (ms1 ms2 : list (list byte * json)) (k : list byte) (v : json)
        (f : EMREventDetail_field) :
  parse data = Some (JObject (ms1 ++ (k, v) :: ms2)) ->
  (forall k' v' f', In (k', v') ms1 -> namesb k' f' = true -> storable v' = true) ->
  namesb k f = true ->
  storable v = false ->
  snd (json.Unmarshal data EMREventDetail_zero)
  = Some (UnmarshalTypeError (kind_of v) "EMREventDetail" (json.tag_of f)).
Proof.
  intros Hparse H1 Hk Hv. unfold json.Unmarshal. rewrite Hparse.
  unfold json.decode_object. rewrite fold_left_app. cbn [fold_left].
  apply fold_decode_error_kept, decode_member_error; try assumption.
  apply fold_decode_no_error; [exact H1|reflexivity].
Qed.


Lemma skip_ws_blank (s : list byte) :
  forallb isSpace s = true -> skip_ws s = [].
Proof.
  induction s as [|c r IH]; [reflexivity|]. cbn [forallb skip_ws].
  intros H. apply andb_true_iff in H as [Hc Hr]. rewrite Hc. apply IH, Hr.
Qed.

Lemma parse_blank (data : list byte) :
  forallb isSpace data = true -> parse data = None.
Proof.
  intros H. unfold parse.
  assert (E : forall d, parse_value d data = None)
    by (intros d; destruct d; cbn [parse_value]; rewrite (skip_ws_blank _ H);
        reflexivity).
  rewrite E. reflexivity.
Qed.

Lemma scan_string_plain_cons (c : byte) (r : list byte) :
  plainb c = true -> scan_string (c :: r) = prepend [c] (scan_string r).
Proof.
  unfold plainb. intros H.
  apply andb_true_iff in H as [H H4]. apply andb_true_iff in H as [H H3].
  apply andb_true_iff in H as [H1 H2].
  apply negb_true_iff in H3, H4.
  cbn [scan_string]. rewrite H3, H4, N.ltb_antisym, H1, H2. reflexivity.
Qed.

Lemma scan_string_plain (s r : list byte) :
  forallb plainb s = true -> scan_string (s ++ quote :: r) = Some (s, r).
Proof.
  induction s as [|c s IH]; intros H; [reflexivity|].
  cbn [forallb] in H. apply andb_true_iff in H as [Hc Hs].
  cbn [app]. rewrite (scan_string_plain_cons c _ Hc), (IH Hs). reflexivity.
Qed.

(** One step of a scanner at a byte that is known. *)
Ltac at_byte :=
  match goal with
  | |- context [skip_ws (?c :: ?x)] =>
      change (skip_ws (c :: x)) with (c :: x); cbv beta iota
  end.

Ltac is_byte b :=
  match goal with
  | |- context [Byte.eqb ?a ?c] =>
      change (Byte.eqb a c) with b; cbv beta iota
  end.

Lemma parse_value_string (d : nat) (s r : list byte) :
  forallb plainb s = true ->
  parse_value d (quote :: s ++ quote :: r) = Some (JString s, r).
Proof.
  intros H. destruct d; cbn [parse_value]; at_byte; is_byte true;
    rewrite (scan_string_plain s r H); reflexivity.
Qed.

Lemma parse_member_plain (d : nat) (k v r : list byte) :
  forallb plainb k = true -> forallb plainb v = true ->
  parse_member (parse_value d)
               (quote :: k ++ quote :: ":"%byte :: quote :: v ++ quote :: r)
  = Some ((k, JString v), r).
Proof.
  intros Hk Hv. unfold parse_member. at_byte. is_byte true.
  rewrite (scan_string_plain k _ Hk). at_byte. is_byte true.
  rewrite (parse_value_string d v r Hv). reflexivity.
Qed.

(** More fuel than was enough reads the same. *)
Lemma parse_members_more_fuel (value : list byte -> option (json * list byte))
      (fuel : nat) :
  forall fuel' s x,
    parse_members value fuel s = Some x -> fuel <= fuel' ->
    parse_members value fuel' s = Some x.
Proof.
  induction fuel as [|fuel IH]; intros fuel' s x H Hle; [discriminate|].
  destruct fuel' as [|fuel']; [lia|]. cbn [parse_members] in *.
  destruct (parse_member value s) as [[m r]|]; [|discriminate].
  destruct (skip_ws r) as [|c r1]; [discriminate|].
  destruct (Byte.eqb c ","); [|exact H].
  destruct (parse_members value fuel r1) as [[ms r2]|] eqn:E; [|discriminate].
  rewrite (IH fuel' r1 _ E) by lia. exact H.
Qed.

(** The three members of [detail_text], read with fuel 3. *)
Lemma parse_members_three (d : nat) (k1 v1 k2 v2 k3 v3 r : list byte) :
  forallb plainb k1 = true -> forallb plainb v1 = true ->
  forallb plainb k2 = true -> forallb plainb v2 = true ->
  forallb plainb k3 = true -> forallb plainb v3 = true ->
  parse_members (parse_value d) 3
    (quote :: k1 ++ quote :: ":"%byte :: quote :: v1 ++ quote :: ","%byte ::
     quote :: k2 ++ quote :: ":"%byte :: quote :: v2 ++ quote :: ","%byte ::
     quote :: k3 ++ quote :: ":"%byte :: quote :: v3 ++ quote :: "}"%byte :: r)
  = Some ([(k1, JString v1); (k2, JString v2); (k3, JString v3)], r).
Proof.
  intros Hk1 Hv1 Hk2 Hv2 Hk3 Hv3. cbn [parse_members].
  rewrite (parse_member_plain d k1 v1 _ Hk1 Hv1). at_byte. is_byte true.
  rewrite (parse_member_plain d k2 v2 _ Hk2 Hv2). at_byte. is_byte true.
  rewrite (parse_member_plain d k3 v3 _ Hk3 Hv3). at_byte.
  is_byte false. is_byte true. reflexivity.
Qed.

Lemma parse_object_three (d : nat) (k1 v1 k2 v2 k3 v3 r : list byte) :
  forallb plainb k1 = true -> forallb plainb v1 = true ->
  forallb plainb k2 = true -> forallb plainb v2 = true ->
  forallb plainb k3 = true -> forallb plainb v3 = true ->
  parse_value (S d)
    ("{"%byte ::
     quote :: k1 ++ quote :: ":"%byte :: quote :: v1 ++ quote :: ","%byte ::
     quote :: k2 ++ quote :: ":"%byte :: quote :: v2 ++ quote :: ","%byte ::
     quote :: k3 ++ quote :: ":"%byte :: quote :: v3 ++ quote :: "}"%byte :: r)
  = Some (JObject [(k1, JString v1); (k2, JString v2); (k3, JString v3)], r).
Proof.
  intros Hk1 Hv1 Hk2 Hv2 Hk3 Hv3. cbn [parse_value]. at_byte.
  is_byte false. is_byte true. unfold closes. at_byte. is_byte false.
  rewrite (parse_members_more_fuel (parse_value d) 3 _ _ _
             (parse_members_three d k1 v1 k2 v2 k3 v3 r Hk1 Hv1 Hk2 Hv2 Hk3 Hv3));
    [reflexivity|].
  cbn [List.length]. rewrite length_app. cbn [List.length]. lia.
Qed.

Lemma detail_text_bytes (d : EMREventDetail) :
  detail_text d
  = "{"%byte ::
    quote :: list_byte_of_string "severity" ++ quote :: ":"%byte ::
    quote :: list_byte_of_string (Severity d) ++ quote :: ","%byte ::
    quote :: list_byte_of_string "state" ++ quote :: ":"%byte ::
    quote :: list_byte_of_string (State d) ++ quote :: ","%byte ::
    quote :: list_byte_of_string "message" ++ quote :: ":"%byte ::
    quote :: list_byte_of_string (Message d) ++ quote :: "}"%byte :: [].
Proof.
  unfold detail_text, member_text, string_text.
  change (list_byte_of_string "{") with ["{"%byte].
  change (list_byte_of_string ":") with [":"%byte].
  change (list_byte_of_string ",") with [","%byte].
  change (list_byte_of_string "}") with ["}"%byte].
  cbn [app]. repeat (rewrite <- app_assoc; cbn [app]). reflexivity.
Qed.

Lemma maxNestingDepth_S : maxNestingDepth = S (Nat.pred maxNestingDepth).
Proof. reflexivity. Qed.

Lemma parse_detail_text (d : EMREventDetail) :
  plain (Severity d) -> plain (State d) -> plain (Message d) ->
  parse (detail_text d)
  = Some (JObject
            [(list_byte_of_string "severity",
              JString (list_byte_of_string (Severity d)));
             (list_byte_of_string "state",
              JString (list_byte_of_string (State d)));
             (list_byte_of_string "message",
              JString (list_byte_of_string (Message d)))]).
Proof.
  intros H1 H2 H3. unfold parse.
  rewrite detail_text_bytes, maxNestingDepth_S.
  rewrite parse_object_three by (assumption || reflexivity).
  reflexivity.
Qed.

Lemma find_field_tag (f : EMREventDetail_field) :
  find_field EMREventDetail_tags (list_byte_of_string (json.tag_of f)) = Some f.
Proof. destruct f; vm_compute; reflexivity. Qed.

Lemma decode_detail_text (d : EMREventDetail) :
  plain (Severity d) -> plain (State d) -> plain (Message d) ->
  json.Unmarshal (detail_text d) EMREventDetail_zero = (d, None).
Proof.
  intros H1 H2 H3. unfold json.Unmarshal.
  rewrite (parse_detail_text d H1 H2 H3).
  unfold json.decode_object. cbn [fold_left]. unfold json.decode_member.
  cbn [fst snd].
  pose proof (find_field_tag F_Severity) as E1.
  pose proof (find_field_tag F_State) as E2.
  pose proof (find_field_tag F_Message) as E3.
  cbn [json.tag_of] in E1, E2, E3. rewrite E1, E2, E3.
  cbn [store_string set_field get_field saveError fst snd json.tag_of
       Severity State Message EMREventDetail_zero].
  rewrite !string_of_list_byte_of_string. destruct d. reflexivity.
Qed.

(** X20: decoding gives back what was written: the JSON text of a detail
    whose three strings are made of printable ASCII characters other than
    the quote and the backslash is read as an object with the three members,
    and decodes, without an error, to this very detail. *)
Theorem Unmarshal_detail_text (d : EMREventDetail) :
  plain (Severity d) -> plain (State d) -> plain (Message d) ->
  parse (detail_text d)
  = Some (JObject
            [(list_byte_of_string "severity",
              JString (list_byte_of_string (Severity d)));
             (list_byte_of_string "state",
              JString (list_byte_of_string (State d)));
             (list_byte_of_string "message",
              JString (list_byte_of_string (Message d)))])
  /\ json.Unmarshal (detail_text d) EMREventDetail_zero = (d, None).
Proof.
  intros H1 H2 H3. split.
  - apply (parse_detail_text d H1 H2 H3).
  - apply (decode_detail_text d H1 H2 H3).
Qed.

End MoreDecoderFacts.


Section MoreEndToEndFacts.
Import encoding_json events slack.
Context {C : Collaborators}.

(** X18: a matching event whose detail is empty or made of white space
    only, as that of an event without a detail, is dropped: the syntax error
    is logged, nothing is sent, the handler returns [nil]. *)
Theorem HandleRequest_blank_detail (ctx : Context)
        (event : CloudWatchEvent time_Time) (w : World) :
  Source event = "aws.emr" ->
  forallb isSpace (Detail event) = true ->
  fst (HandleRequest ctx event w) = None
  /\ calls_during (HandleRequest ctx event) w = []
  /\ logged_during (HandleRequest ctx event) w
     = [Error_Println (JsonError SyntaxError)].
Proof.
  intros Hsrc Hblank.
  assert (Hdec : json.Unmarshal (Detail event) EMREventDetail_zero
                 = (EMREventDetail_zero, Some SyntaxError))
    by (unfold json.Unmarshal; rewrite (parse_blank _ Hblank); reflexivity).
  pose proof (HandleRequest_undecoded ctx event w _ _ Hsrc Hdec) as Hrun.
  rewrite Hrun. cbn [fst]. repeat split.
  - apply unchanged_calls_during. rewrite Hrun. reflexivity.
  - unfold logged_during. rewrite Hrun. apply skipn_length_app.
Qed.

(** X19: a matching event whose detail is the JSON value [null] is not
    dropped: it decodes to the empty detail, and a notification of color
    good, with an empty text and an empty state, is sent. *)
Theorem HandleRequest_null_detail (ctx : Context)
        (event : CloudWatchEvent time_Time) (w : World) :
  Source event = "aws.emr" ->
  parse (Detail event) = Some JNull ->
  exists a answer,
    calls_during (HandleRequest ctx event) w = [(payload_of [a], answer)]
    /\ Color a = "good"
    /\ Text a = ""
    /\ In {| Field_Title := "State"; Field_Value := ""; Field_Short := true |}
          (Attachment_Field a).
Proof.
  intros Hsrc Hparse.
  assert (Hdec : json.Unmarshal (Detail event) EMREventDetail_zero
                 = (EMREventDetail_zero, None))
    by (unfold json.Unmarshal; rewrite Hparse; reflexivity).
  destruct (HandleRequest_sends_built ctx event w _ Hsrc Hdec) as (answer & Hc).
  exists (fst (build_attachment event EMREventDetail_zero w)), answer.
  split; [exact Hc|]. split; [reflexivity|]. split; [reflexivity|].
  cbn. auto.
Qed.

(** X21: from the bytes to the notification: for a matching event whose
    detail is the JSON text of three plain strings, the handler sends one
    attachment whose text is the message, whose field State is the state,
    and whose color is danger when the severity is ERROR and good
    otherwise. *)
Theorem HandleRequest_detail_text (ctx : Context)
        (event : CloudWatchEvent time_Time) (w : World) (d : EMREventDetail) :
  Source event = "aws.emr" ->
  Detail event = detail_text d ->
  plain (Severity d) -> plain (State d) -> plain (Message d) ->
  exists a answer,
    calls_during (HandleRequest ctx event) w = [(payload_of [a], answer)]
    /\ Color a = (if (Severity d =? "ERROR")%string then "danger" else "good")
    /\ Text a = Message d
    /\ In {| Field_Title := "State"; Field_Value := State d;
             Field_Short := true |}
          (Attachment_Field a).
Proof.
  intros Hsrc Hdetail H1 H2 H3.
  assert (Hdec : json.Unmarshal (Detail event) EMREventDetail_zero = (d, None))
    by (rewrite Hdetail; apply (decode_detail_text d H1 H2 H3)).
  destruct (HandleRequest_sends_built ctx event w d Hsrc Hdec) as (answer & Hc).
  exists (fst (build_attachment event d w)), answer.
  split; [exact Hc|]. split; [reflexivity|]. split; [reflexivity|].
  cbn. auto.
Qed.

End MoreEndToEndFacts.

(* ===================================================================== *)
(** ** The properties at concrete inputs                                 *)
(* ===================================================================== *)

Section Instances.
Import events slack encoding_json Examples.
#[local] Existing Instance flaky.

(** Two details that are JSON objects and do not decode as C7 says: a
    severity that is a number makes the decoder fail, and a key SEVERITY,
    in a detail without the key severity, fills the field. *)
Lemma Unmarshal_typed_and_case_insensitive :
  (parse detailC
   = Some (JObject [(list_byte_of_string "severity",
                     JNumber (list_byte_of_string "5"))])
   /\ json.Unmarshal detailC EMREventDetail_zero
      = (EMREventDetail_zero,
         Some (UnmarshalTypeError "number" "EMREventDetail" "severity")))
  /\ (parse detailD
      = Some (JObject [(list_byte_of_string "SEVERITY",
                        JString (list_byte_of_string "ERROR"))])
      /\ json.Unmarshal detailD EMREventDetail_zero
         = ({| Severity := "ERROR"; State := ""; Message := "" |}, None)).
Proof. repeat split; vm_compute; reflexivity. Qed.

Lemma HandleRequest_returns_nil_example :
  fst (HandleRequest (C := flaky) tt (ev "aws.emr" detailA) w0) = None.
Proof. apply (HandleRequest_returns_nil (C := flaky)). Defined.

Lemma dispatch_partitions_witness :
  0 < List.length atts250
  /\ let sent := map (fun c => Attachments (fst c))
                     (calls_during (dispatch (C := flaky) atts250) w0) in
     List.length sent = (List.length atts250 + 99) / 100
     /\ Forall (fun s => List.length s <= 100) sent
     /\ (forall k, k < List.length sent ->
           nth k sent [] = slice atts250 (k * 100)
                                 (Nat.min (k * 100 + 100) (List.length atts250)))
     /\ (forall k, S k < List.length sent -> List.length (nth k sent []) = 100)
     /\ List.concat sent = atts250.
Proof.
  split; [vm_compute; lia|].
  apply (dispatch_partitions (C := flaky) atts250 w0). vm_compute. lia.
Defined.

Lemma dispatch_continues_after_failure_witness :
  atts250 <> []
  /\ let cs := calls_during (dispatch (C := flaky) atts250) w0 in
     let ls := logged_during (dispatch (C := flaky) atts250) w0 in
     map fst cs = map (fun k => payload_of (chunk_at atts250 k))
                      (seq 0 (chunk_count (List.length atts250)))
     /\ ls = map (fun c => log_of_answer (snd c)) cs
     /\ forall i p resp err,
          nth_error cs i = Some (p, (resp, Some err)) ->
          nth_error ls i = Some (Error_Println (SendError err))
          /\ (S i < chunk_count (List.length atts250) ->
              exists answer,
                nth_error cs (S i)
                = Some (payload_of (chunk_at atts250 (S i)), answer)).
Proof.
  split; [discriminate|].
  apply (dispatch_continues_after_failure (C := flaky) atts250 w0). discriminate.
Defined.

Lemma HandleRequest_color_witness :
  Source eventA = "aws.emr"
  /\ json.Unmarshal (Detail eventA) EMREventDetail_zero = (decodedA, None)
  /\ exists a answer,
       calls_during (HandleRequest (C := flaky) tt eventA) w0 = [(payload_of [a], answer)]
       /\ (Color a = "danger" <-> Severity decodedA = "ERROR")
       /\ (Color a = "good" <-> Severity decodedA <> "ERROR")
       /\ (Color a = "danger" \/ Color a = "good").
Proof.
  split; [reflexivity|]. split; [vm_compute; reflexivity|].
  apply (HandleRequest_color (C := flaky) tt eventA w0 decodedA);
    [reflexivity|vm_compute; reflexivity].
Defined.

Lemma HandleRequest_malformed_detail_witness :
  Source eventD = "aws.emr"
  /\ parse (Detail eventD) = None
  /\ snd (json.Unmarshal (Detail eventD) EMREventDetail_zero) = Some SyntaxError
  /\ HandleRequest (C := flaky) tt eventD w0 =
     (None, {| clock := clock w0; environ := environ w0; client := client w0;
               calls := calls w0;
               logged := logged w0 ++ [Error_Println (JsonError SyntaxError)] |})
  /\ calls_during (HandleRequest (C := flaky) tt eventD) w0 = []
  /\ logged_during (HandleRequest (C := flaky) tt eventD) w0
     = [Error_Println (JsonError SyntaxError)].
Proof.
  split; [reflexivity|]. split; [vm_compute; reflexivity|].
  apply (HandleRequest_malformed_detail (C := flaky) tt eventD w0);
    [reflexivity|vm_compute; reflexivity].
Defined.

Lemma HandleRequest_ignores_other_sources_witness :
  Source eventB <> "aws.emr"
  /\ HandleRequest (C := flaky) tt eventB w0 =
     (None, {| clock := clock w0; environ := environ w0; client := client w0;
               calls := calls w0;
               logged := logged w0 ++ [Warning_Println "No Slack Sent"] |})
  /\ calls_during (HandleRequest (C := flaky) tt eventB) w0 = []
  /\ logged_during (HandleRequest (C := flaky) tt eventB) w0
     = [Warning_Println "No Slack Sent"].
Proof.
  split; [discriminate|].
  apply (HandleRequest_ignores_other_sources (C := flaky) tt eventB w0). discriminate.
Defined.

(** What [detailB] is as a JSON object. *)
Lemma parse_detailB :
  parse detailB
  = Some (JObject [(list_byte_of_string "SEVERITY",
                    JString (list_byte_of_string "ERROR"));
                   (list_byte_of_string "cluster",
                    JArray [JNumber (list_byte_of_string "1");
                            JNumber (list_byte_of_string "2")]);
                   (list_byte_of_string "state", JNull)]).
Proof. vm_compute. reflexivity. Defined.

Lemma Unmarshal_object_fields_witness :
  exists ms,
    parse detailB = Some (JObject ms)
    /\ (forall k v f, In (k, v) ms -> namesb k f = true -> storable v = true)
    /\ exists d,
         json.Unmarshal detailB EMREventDetail_zero = (d, None)
         /\ (forall f,
               (forall k s, In (k, JString s) ms -> namesb k f = false) ->
               get_field f d = "")
         /\ (forall f ms1 k s ms2,
               ms = ms1 ++ (k, JString s) :: ms2 ->
               namesb k f = true ->
               (forall k' s', In (k', JString s') ms2 -> namesb k' f = false) ->
               get_field f d = string_of_list_byte s)
         /\ (forall ms1 k v ms2,
               ms = ms1 ++ (k, v) :: ms2 ->
               (forall f, namesb k f = false) ->
               json.decode_object (ms1 ++ ms2) EMREventDetail_zero = (d, None)).
Proof.
  eexists. split; [exact parse_detailB|].
  assert (Htyped : forall k v f,
             In (k, v) [(list_byte_of_string "SEVERITY",
                         JString (list_byte_of_string "ERROR"));
                        (list_byte_of_string "cluster",
                         JArray [JNumber (list_byte_of_string "1");
                                 JNumber (list_byte_of_string "2")]);
                        (list_byte_of_string "state", JNull)] ->
             namesb k f = true -> storable v = true).
  { intros k v f [E|[E|[E|[]]]]; injection E as <- <-; destruct f;
      vm_compute; congruence. }
  split; [exact Htyped|].
  apply (Unmarshal_object_fields detailB _ parse_detailB Htyped).
Defined.

Lemma HandleRequest_attachment_shape_witness :
  Source eventA = "aws.emr"
  /\ json.Unmarshal (Detail eventA) EMREventDetail_zero = (decodedA, None)
  /\ exists a answer,
       calls_during (HandleRequest (C := flaky) tt eventA) w0
       = [({| Channel := slackMonitorChannel; Attachments := [a] |}, answer)]
       /\ Title a = DetailType eventA
       /\ Text a = Message decodedA
       /\ Attachment_Field a =
          [ {| Field_Title := "AccountID"; Field_Value := AccountID eventA;
               Field_Short := true |};
            {| Field_Title := "Region"; Field_Value := Region eventA;
               Field_Short := true |};
            {| Field_Title := "State"; Field_Value := State decodedA;
               Field_Short := true |};
            {| Field_Title := "Time"; Field_Value := Time_String (Time eventA);
               Field_Short := true |} ].
Proof.
  split; [reflexivity|]. split; [vm_compute; reflexivity|].
  apply (HandleRequest_attachment_shape (C := flaky) tt eventA w0 decodedA);
    [reflexivity|vm_compute; reflexivity].
Defined.

Lemma HandleRequest_timestamp_witness :
  Source eventA = "aws.emr"
  /\ json.Unmarshal (Detail eventA) EMREventDetail_zero = (decodedA, None)
  /\ exists a answer,
       calls_during (HandleRequest (C := flaky) tt eventA) w0 = [(payload_of [a], answer)]
       /\ Ts a = Z.quot (Time_UnixNano (clock w0)) 1000000000
       /\ (Z.abs (Ts a * 1000000000) <= Z.abs (Time_UnixNano (clock w0)))%Z
       /\ (Z.abs (Time_UnixNano (clock w0) - Ts a * 1000000000) < 1000000000)%Z
       /\ (- 2 ^ 63 <= Ts a < 2 ^ 63)%Z
       /\ forall t, exists a' answer',
            calls_during (HandleRequest (C := flaky) tt (with_Time eventA t)) w0
            = [(payload_of [a'], answer')]
            /\ Ts a' = Ts a.
Proof.
  split; [reflexivity|]. split; [vm_compute; reflexivity|].
  apply (HandleRequest_timestamp (C := flaky) tt eventA w0 decodedA);
    [reflexivity|vm_compute; reflexivity].
Defined.

(** The end-to-end scenarios of the specification, run on the example
    client. *)

(** Scenario A: one attachment, of color danger, sent in one payload; the
    client fails, which is logged. *)
Example scenario_A :
  HandleRequest (C := flaky) tt eventA w0
  = (None,
     {| clock := clock w0; environ := environ w0; client := 1%nat;
        calls :=
          [({| Channel := "#emr";
               Attachments :=
                 [{| Color := "danger";
                     Title := "EMR Cluster State Change";
                     Text := "boom";
                     Footer := "AWS_LAMBDA_FUNCTION_NAME";
                     FooterIcon := "https://d1d05r7k0qlw4w.cloudfront.net/dist-cbe91c5a8477701757ff6752aae4c6f892018972/img/favicon.ico";
                     Ts := 1527854401;
                     Attachment_Field :=
                       [{| Field_Title := "AccountID"; Field_Value := "123";
                           Field_Short := true |};
                        {| Field_Title := "Region"; Field_Value := "us-east-1";
                           Field_Short := true |};
                        {| Field_Title := "State"; Field_Value := "TERMINATED";
                           Field_Short := true |};
                        {| Field_Title := "Time";
                           Field_Value := "2018-06-01 12:00:00 +0000 UTC";
                           Field_Short := true |}] |}] |},
            (0%nat, Some "timeout"))];
        logged := [Error_Println (SendError "timeout")] |}).
Proof. reflexivity. Qed.

(** Scenario C: 250 attachments go out as 100, 100 and 50, and the
    failures of the first and the third call stop nothing. *)
Example scenario_C :
  map (fun c => (List.length (Attachments (fst c)), snd c))
      (calls_during (dispatch (C := flaky) atts250) w0)
  = [(100, (0, Some "timeout")); (100, (1, None)); (50, (2, Some "timeout"))]
  /\ logged_during (dispatch (C := flaky) atts250) w0
     = [Error_Println (SendError "timeout"); Info_Println 1;
        Error_Println (SendError "timeout")].
Proof. split; reflexivity. Qed.

(** A detail whose severity is a number is dropped like one that is not
    JSON: the type error is logged and nothing is sent. *)
Example severity_number_dropped :
  HandleRequest (C := flaky) tt (ev "aws.emr" detailC) w0
  = (None,
     {| clock := clock w0; environ := environ w0; client := client w0;
        calls := [];
        logged :=
          [Error_Println
             (JsonError (UnmarshalTypeError "number" "EMREventDetail"
                                            "severity"))] |}).
Proof. reflexivity. Qed.

(** The further properties at concrete inputs. *)

Lemma HandleRequest_drops_undecoded_witness :
  Source eventC = "aws.emr"
  /\ snd (json.Unmarshal (Detail eventC) EMREventDetail_zero)
     = Some (UnmarshalTypeError "number" "EMREventDetail" "severity")
  /\ fst (HandleRequest (C := flaky) tt eventC w0) = None
  /\ calls_during (HandleRequest (C := flaky) tt eventC) w0 = []
  /\ logged_during (HandleRequest (C := flaky) tt eventC) w0
     = [Error_Println
          (JsonError (UnmarshalTypeError "number" "EMREventDetail" "severity"))]
  /\ client (snd (HandleRequest (C := flaky) tt eventC w0)) = client w0.
Proof.
  split; [reflexivity|]. split; [vm_compute; reflexivity|].
  apply (HandleRequest_drops_undecoded (C := flaky) tt eventC w0);
    [reflexivity|vm_compute; reflexivity].
Defined.

Lemma HandleRequest_footer_and_channel_witness :
  Source eventA = "aws.emr"
  /\ json.Unmarshal (Detail eventA) EMREventDetail_zero = (decodedA, None)
  /\ exists a answer,
       calls_during (HandleRequest (C := flaky) tt eventA) w0
       = [({| Channel := slackMonitorChannel; Attachments := [a] |}, answer)]
       /\ Footer a = environ w0 "AWS_LAMBDA_FUNCTION_NAME"
       /\ FooterIcon a = "https://d1d05r7k0qlw4w.cloudfront.net/dist-cbe91c5a8477701757ff6752aae4c6f892018972/img/favicon.ico".
Proof.
  split; [reflexivity|]. split; [vm_compute; reflexivity|].
  apply (HandleRequest_footer_and_channel (C := flaky) tt eventA w0 decodedA);
    [reflexivity|vm_compute; reflexivity].
Defined.

Lemma HandleRequest_send_and_log_witness :
  Source eventA = "aws.emr"
  /\ json.Unmarshal (Detail eventA) EMREventDetail_zero = (decodedA, None)
  /\ let payload := payload_of [fst (build_attachment eventA decodedA w0)] in
     let answer := snd (Client_Send (client w0) payload) in
     calls_during (HandleRequest (C := flaky) tt eventA) w0 = [(payload, answer)]
     /\ logged_during (HandleRequest (C := flaky) tt eventA) w0
        = [match snd answer with
           | Some err => Error_Println (SendError err)
           | None => Info_Println (fst answer)
           end]
     /\ client (snd (HandleRequest (C := flaky) tt eventA w0))
        = fst (Client_Send (client w0) payload).
Proof.
  split; [reflexivity|]. split; [vm_compute; reflexivity|].
  apply (HandleRequest_send_and_log (C := flaky) tt eventA w0 decodedA);
    [reflexivity|vm_compute; reflexivity].
Defined.

Lemma HandleRequest_reads_six_fields_witness :
  same_read_fields eventA eventA'
  /\ HandleRequest (C := flaky) tt eventA w0
     = HandleRequest (C := flaky) tt eventA' w0.
Proof.
  assert (H : same_read_fields (C := flaky) eventA eventA')
    by (repeat split).
  split; [exact H|].
  apply (HandleRequest_reads_six_fields (C := flaky) tt tt eventA eventA' w0 H).
Defined.

Lemma dispatch_runs_client_in_order_witness :
  atts250 <> []
  /\ let run := client_run (client w0) (map payload_of (chunks atts250)) in
     let w' := snd (dispatch (C := flaky) atts250 w0) in
     calls w' = calls w0 ++ fst run
     /\ logged w'
        = logged w0 ++ map (fun call => log_of_answer (snd call)) (fst run)
     /\ client w' = snd run
     /\ clock w' = clock w0
     /\ environ w' = environ w0.
Proof.
  split; [discriminate|].
  apply (dispatch_runs_client_in_order (C := flaky) atts250 w0). discriminate.
Defined.

Lemma dispatch_small_list_one_payload_witness :
  0 < List.length atts7 <= 100
  /\ calls_during (dispatch (C := flaky) atts7) w0
     = [(payload_of atts7, snd (Client_Send (client w0) (payload_of atts7)))].
Proof.
  assert (H : 0 < List.length atts7 <= 100) by (vm_compute; lia).
  split; [exact H|].
  apply (dispatch_small_list_one_payload (C := flaky) atts7 w0 H).
Defined.

Lemma dispatch_app_witness :
  List.length atts100 = 1 * 100 /\ atts100 <> [] /\ atts7 <> []
  /\ dispatch (C := flaky) (atts100 ++ atts7) w0
     = dispatch atts7 (snd (dispatch atts100 w0)).
Proof.
  split; [reflexivity|]. split; [discriminate|]. split; [discriminate|].
  apply (dispatch_app (C := flaky) 1 atts100 atts7 w0);
    [reflexivity|discriminate|discriminate].
Defined.

Lemma loop_slice_within_bounds_witness :
  200 < List.length atts250
  /\ let end_ := 200 + slackAttachmentsChunkSize in
     let end_ := if (List.length atts250 <? end_)%nat
                 then List.length atts250 else end_ in
     200 < end_ <= List.length atts250
     /\ List.length (slice atts250 200 end_) = end_ - 200.
Proof.
  assert (H : 200 < List.length atts250) by (vm_compute; lia).
  split; [exact H|].
  apply (loop_slice_within_bounds atts250 200 H).
Defined.

(** What [detailE] is as a JSON object. *)
Lemma parse_detailE :
  parse detailE
  = Some (JObject
            ([(list_byte_of_string "state",
               JString (list_byte_of_string "RUNNING"))]
             ++ (list_byte_of_string "Severity",
                 JNumber (list_byte_of_string "5"))
             :: [(list_byte_of_string "message", JArray [])])).
Proof. vm_compute. reflexivity. Defined.

Lemma Unmarshal_reports_first_mismatch_witness :
  snd (json.Unmarshal detailE EMREventDetail_zero)
  = Some (UnmarshalTypeError "number" "EMREventDetail" "severity").
Proof.
  apply (Unmarshal_reports_first_mismatch detailE _ _ _ _ F_Severity
                                          parse_detailE).
  - intros k v f [E|[]]. injection E as <- <-. reflexivity.
  - vm_compute. reflexivity.
  - reflexivity.
Defined.


Lemma HandleRequest_blank_detail_witness :
  Source eventBlank = "aws.emr"
  /\ forallb isSpace (Detail eventBlank) = true
  /\ fst (HandleRequest (C := flaky) tt eventBlank w0) = None
  /\ calls_during (HandleRequest (C := flaky) tt eventBlank) w0 = []
  /\ logged_during (HandleRequest (C := flaky) tt eventBlank) w0
     = [Error_Println (JsonError SyntaxError)].
Proof.
  split; [reflexivity|]. split; [reflexivity|].
  apply (HandleRequest_blank_detail (C := flaky) tt eventBlank w0); reflexivity.
Defined.

Lemma HandleRequest_null_detail_witness :
  Source eventNull = "aws.emr"
  /\ parse (Detail eventNull) = Some JNull
  /\ exists a answer,
       calls_during (HandleRequest (C := flaky) tt eventNull) w0
       = [(payload_of [a], answer)]
       /\ Color a = "good"
       /\ Text a = ""
       /\ In {| Field_Title := "State"; Field_Value := "";
                Field_Short := true |}
             (Attachment_Field a).
Proof.
  split; [reflexivity|]. split; [vm_compute; reflexivity|].
  apply (HandleRequest_null_detail (C := flaky) tt eventNull w0);
    [reflexivity|vm_compute; reflexivity].
Defined.

Lemma Unmarshal_detail_text_witness :
  plain (Severity decodedA) /\ plain (State decodedA) /\ plain (Message decodedA)
  /\ parse (detail_text decodedA)
     = Some (JObject
               [(list_byte_of_string "severity",
                 JString (list_byte_of_string (Severity decodedA)));
                (list_byte_of_string "state",
                 JString (list_byte_of_string (State decodedA)));
                (list_byte_of_string "message",
                 JString (list_byte_of_string (Message decodedA)))])
  /\ json.Unmarshal (detail_text decodedA) EMREventDetail_zero = (decodedA, None).
Proof.
  split; [reflexivity|]. split; [reflexivity|]. split; [reflexivity|].
  apply (Unmarshal_detail_text decodedA); reflexivity.
Defined.

Lemma HandleRequest_detail_text_witness :
  Source eventA = "aws.emr"
  /\ Detail eventA = detail_text decodedA
  /\ plain (Severity decodedA) /\ plain (State decodedA)
  /\ plain (Message decodedA)
  /\ exists a answer,
       calls_during (HandleRequest (C := flaky) tt eventA) w0
       = [(payload_of [a], answer)]
       /\ Color a = (if (Severity decodedA =? "ERROR")%string
                     then "danger" else "good")
       /\ Text a = Message decodedA
       /\ In {| Field_Title := "State"; Field_Value := State decodedA;
                Field_Short := true |}
             (Attachment_Field a).
Proof.
  split; [reflexivity|]. split; [reflexivity|]. split; [reflexivity|].
  split; [reflexivity|]. split; [reflexivity|].
  apply (HandleRequest_detail_text (C := flaky) tt eventA w0 decodedA);
    reflexivity.
Defined.

End Instances.
